(** * A chatbot front-end with persistent history and schema-driven inserts

    Shallow embedding of [src/main.py]: the [PersistentChatHistory] class over
    the [chat_history] table, the [chat_with_memory] chain, [process_schema]
    and the Gradio callback [handle_interaction].

    The program is written against collaborators that live outside the
    repository: the database engine, the language model, the [json] decoder,
    the interpreter's builtins and [RunnableWithMessageHistory].  They appear
    here as follows.

    - The connection and its cursor are process-wide; they are the [World]
      threaded through every operation.  The world holds the rows of
      [chat_history] in the order in which the engine stores them, which is
      the order in which a SELECT without ORDER BY returns them.  Where a new
      row is stored among the rows already there is the engine's choice
      (PostgreSQL puts it after them, or in a slot that a DELETE has freed):
      it is a field of the [Runtime] record.  Every statement, commit, prompt
      and model call is recorded, in order, in the world's [trace].
    - A statement whose text is built from the schema is recorded as issued,
      with its text and its bound values, and the run is followed as it goes
      when the engine accepts the statement; what the engine does with it is
      not interpreted.
    - The model, [json.loads], [float], [repr] and the configuration merge of
      [RunnableWithMessageHistory] are fields of the [Runtime] record; every
      theorem holds for every runtime, and [library_merge_configs] is the
      merge as the library has it.
    - A str is kept as the bytes of its UTF-8 encoding. *)

From Stdlib Require Import String Ascii List ZArith Bool Lia Floats DecimalString.
From Stdlib Require Import Permutation.
Import ListNotations.

Local Open Scope string_scope.
Local Open Scope list_scope.

Infix "+++" := String.append (right associativity, at level 60).

Set Warnings "-register-all".

(** ** Python values *)

(** What [json.loads] can return, what [float] returns, and what is bound to
    a statement: None, bool, int, float, str, list and dict with str keys (in
    insertion order). *)
Inductive pyval : Type :=
| PNone
| PBool (b : bool)
| PInt (z : Z)
| PFloat (f : float)
| PStr (s : string)
| PList (l : list pyval)
| PDict (d : list (string * pyval)).

(** The exceptions that can leave the program's functions. [ProviderError]
    stands for whatever the model client raises. *)
Inductive exn : Type :=
| ValueError
| KeyError (key : string)
| TypeError
| AttributeError
| EOFError
| ProviderError.

Inductive result (A : Type) : Type :=
| Ok (a : A)
| Raise (e : exn).
Arguments Ok {A} a.
Arguments Raise {A} e.

(** ** Messages *)

Inductive BaseMessage : Type :=
| AIMessage (content : string)
| HumanMessage (content : string)
| SystemMessage (content : string).

Definition content (m : BaseMessage) : string :=
  match m with
  | AIMessage c | HumanMessage c | SystemMessage c => c
  end.

(** [isinstance(message, AIMessage)] *)
Definition is_AIMessage (m : BaseMessage) : bool :=
  match m with AIMessage _ => true | _ => false end.

(** A chat turn of a conversation: a human or an ai message. *)
Definition is_chat_message (m : BaseMessage) : bool :=
  match m with
  | AIMessage _ | HumanMessage _ => true
  | SystemMessage _ => false
  end.

(** ** The world: database, terminal, and the record of what was done *)

(** A row of [chat_history (user_id, conversation_id, message_type, content)]. *)
Record Row : Type := mkRow {
  row_user_id : string;
  row_conversation_id : string;
  row_message_type : string;
  row_content : string
}.

Inductive Event : Type :=
| EvExecute (sql : string) (params : option (list pyval))
| EvCommit
| EvInput (prompt : string)
| EvLLM (messages : list BaseMessage).

Record World : Type := mkWorld {
  chat_history : list Row;
  stdin : list string;
  trace : list Event
}.

Definition is_execute (e : Event) : bool :=
  match e with EvExecute _ _ => true | _ => false end.

Definition is_llm (e : Event) : bool :=
  match e with EvLLM _ => true | _ => false end.

Definition is_input (e : Event) : bool :=
  match e with EvInput _ => true | _ => false end.

(** The statements issued so far. *)
Definition statements (w : World) : list Event := filter is_execute (trace w).

(** ** Computations: state that survives an exception *)

Definition M (A : Type) : Type := World -> result A * World.

Definition ret {A} (a : A) : M A := fun w => (Ok a, w).

Definition raise {A} (e : exn) : M A := fun w => (Raise e, w).

Definition bind {A B} (m : M A) (k : A -> M B) : M B :=
  fun w =>
    match m w with
    | (Ok a, w') => k a w'
    | (Raise e, w') => (Raise e, w')
    end.

Definition lift {A} (r : result A) : M A := fun w => (r, w).

Notation "x <- m ;; k" := (bind m (fun x => k))
  (at level 61, m at next level, right associativity).
Notation "m ;;; k" := (bind m (fun _ => k))
  (at level 61, right associativity).

Definition log (e : Event) : M unit :=
  fun w => (Ok tt, mkWorld (chat_history w) (stdin w) (trace w ++ [e])).

(** [db_connection.commit()] *)
Definition commit : M unit := log EvCommit.

(** [db_cursor.execute(sql)] and [db_cursor.execute(sql, params)] for a
    statement the model does not interpret. *)
Definition execute (sql : string) (params : option (list pyval)) : M unit :=
  log (EvExecute sql params).

(** [input(prompt)]: shows the prompt and reads one line. *)
Definition input (prompt : string) : M string :=
  fun w =>
    match stdin w with
    | [] => (Raise EOFError, mkWorld (chat_history w) [] (trace w ++ [EvInput prompt]))
    | line :: rest => (Ok line, mkWorld (chat_history w) rest (trace w ++ [EvInput prompt]))
    end.

(** ** The runtime outside the repository *)

(** Lookup in a mapping with str keys. *)
Fixpoint assoc {A} (k : string) (d : list (string * A)) : option A :=
  match d with
  | [] => None
  | (k', v) :: rest => if (k' =? k)%string then Some v else assoc k rest
  end.

Record ConfigurableFieldSpec : Type := mkFieldSpec {
  id : string;
  name : string;
  description : string;
  default : string;
  is_shared : bool
}.

Record Runtime : Type := mkRuntime {
  (** [json.loads]; [None] is [json.JSONDecodeError]. *)
  json_loads : string -> option pyval;
  (** the builtin [float] on a str; [None] is its [ValueError]. *)
  py_float : string -> option float;
  (** [repr] on a float and on a str. *)
  float_repr : float -> string;
  str_repr : string -> string;
  (** the model: the messages it is sent, after what has happened so far;
      the reply's text or the exception of the client. *)
  llm : list Event -> list BaseMessage -> result string;
  (** [RunnableWithMessageHistory._merge_configs]: from the declared
      [history_factory_config] and the [configurable] mapping of the call to
      the arguments (user_id, conversation_id) of the history factory, or the
      exception it raises. *)
  merge_configs :
    list ConfigurableFieldSpec -> list (string * string) -> result (string * string);
  (** the engine: how many of the rows of [chat_history] a new row is stored
      after, given what has happened so far, the rows stored, and the row. *)
  insert_position : list Event -> list Row -> Row -> nat
}.

(** An engine that stores every new row after the rows already there. *)
Definition stores_at_end (rt : Runtime) : Prop :=
  forall past rows r, length rows <= insert_position rt past rows r.

(** [RunnableWithMessageHistory._merge_configs] as the library has it: a key
    of [history_factory_config] that the [configurable] mapping of the call
    lacks makes it raise ValueError, whatever default the field declares;
    otherwise the history factory is given the configured values. *)
Definition library_merge_configs (specs : list ConfigurableFieldSpec)
           (configurable : list (string * string)) : result (string * string) :=
  match map (fun sp => assoc (id sp) configurable) specs with
  | [Some u; Some c] => Ok (u, c)
  | _ => Raise ValueError
  end.


(** ** The three statements on [chat_history] *)

Definition nl : string := String (ascii_of_nat 10) "".
Definition indent : string := "            ".

Definition INSERT_SQL : string :=
  nl +++ indent +++ "INSERT INTO chat_history (user_id, conversation_id, message_type, content)"
  +++ nl +++ indent +++ "VALUES (%s, %s, %s, %s)"
  +++ nl +++ indent.

Definition SELECT_SQL : string :=
  nl +++ indent +++ "SELECT message_type, content FROM chat_history"
  +++ nl +++ indent +++ "WHERE user_id = %s AND conversation_id = %s"
  +++ nl +++ indent.

Definition DELETE_SQL : string :=
  nl +++ indent +++ "DELETE FROM chat_history"
  +++ nl +++ indent +++ "WHERE user_id = %s AND conversation_id = %s"
  +++ nl +++ indent.

Definition row_matches (u c : string) (r : Row) : bool :=
  (row_user_id r =? u)%string && (row_conversation_id r =? c)%string.

Definition rows_of (u c : string) (w : World) : list Row :=
  filter (row_matches u c) (chat_history w).

(** The rows with [r] stored after the first [p] of them. *)
Definition insert_at (p : nat) (r : Row) (rows : list Row) : list Row :=
  firstn p rows ++ r :: skipn p rows.

(** INSERT: the row is stored where the engine puts it. *)
Definition execute_insert (rt : Runtime) (u c ty txt : string) : M unit :=
  fun w =>
    let r := mkRow u c ty txt in
    (Ok tt,
     mkWorld (insert_at (insert_position rt (trace w) (chat_history w) r) r (chat_history w))
             (stdin w)
             (trace w ++ [EvExecute INSERT_SQL (Some [PStr u; PStr c; PStr ty; PStr txt])])).

(** SELECT followed by [fetchall()]: the rows of the key, as
    (message_type, content), in the order in which they are stored. *)
Definition execute_select (u c : string) : M (list (string * string)) :=
  fun w =>
    (Ok (map (fun r => (row_message_type r, row_content r)) (rows_of u c w)),
     mkWorld (chat_history w) (stdin w)
             (trace w ++ [EvExecute SELECT_SQL (Some [PStr u; PStr c])])).

(** DELETE: the rows of the key go, the others stay in order. *)
Definition execute_delete (u c : string) : M unit :=
  fun w =>
    (Ok tt,
     mkWorld (filter (fun r => negb (row_matches u c r)) (chat_history w)) (stdin w)
             (trace w ++ [EvExecute DELETE_SQL (Some [PStr u; PStr c])])).

(** ** class PersistentChatHistory *)

Record PersistentChatHistory : Type := mkHistory {
  user_id : string;
  conversation_id : string;
  messages : list BaseMessage
}.

Definition message_of_row (row : string * string) : BaseMessage :=
  if (fst row =? "AI")%string then AIMessage (snd row) else HumanMessage (snd row).

Definition fetch_existing_messages (self : PersistentChatHistory) : M (list BaseMessage) :=
  rows <- execute_select (user_id self) (conversation_id self) ;;
  ret (map message_of_row rows).

(** [__init__]: the fields are set, then the messages are loaded. *)
Definition PersistentChatHistory_init (u c : string) : M PersistentChatHistory :=
  ms <- fetch_existing_messages (mkHistory u c []) ;;
  ret (mkHistory u c ms).

Definition add_message (rt : Runtime) (self : PersistentChatHistory)
           (message : BaseMessage) : M PersistentChatHistory :=
  let message_type := if is_AIMessage message then "AI" else "Human" in
  execute_insert rt (user_id self) (conversation_id self) message_type (content message) ;;;
  commit ;;;
  ret (mkHistory (user_id self) (conversation_id self) (messages self ++ [message])).

Definition clear (self : PersistentChatHistory) : M PersistentChatHistory :=
  execute_delete (user_id self) (conversation_id self) ;;;
  commit ;;;
  ret (mkHistory (user_id self) (conversation_id self) []).

(** [BaseChatMessageHistory.add_messages]: one [add_message] per message. *)
Fixpoint add_messages (rt : Runtime) (self : PersistentChatHistory)
         (ms : list BaseMessage) : M PersistentChatHistory :=
  match ms with
  | [] => ret self
  | m :: rest => self' <- add_message rt self m ;; add_messages rt self' rest
  end.

(** ** Builtins on values *)

(** *** Characters of a str

    A str is a sequence of code points, kept as the bytes of its UTF-8
    encoding.  [code_points] gives the code points, each as its bytes: a lead
    byte with the continuation bytes that follow it, as many as it announces;
    any other byte stands for the code point of its number. *)

Definition is_continuation (a : ascii) : bool :=
  let n := nat_of_ascii a in (128 <=? n)%nat && (n <? 192)%nat.

Fixpoint code_points (s : string) : list string :=
  match s with
  | EmptyString => []
  | String a s1 =>
      let n := nat_of_ascii a in
      let one := String a EmptyString :: code_points s1 in
      if (n <? 192)%nat then one
      else
        match s1 with
        | String b s2 =>
            if negb (is_continuation b) then one
            else if (n <? 224)%nat then String a (String b EmptyString) :: code_points s2
            else
              match s2 with
              | String c s3 =>
                  if negb (is_continuation c) then one
                  else if (n <? 240)%nat
                       then String a (String b (String c EmptyString)) :: code_points s3
                       else
                         match s3 with
                         | String d s4 =>
                             if negb (is_continuation d) then one
                             else String a (String b (String c (String d EmptyString)))
                                  :: code_points s4
                         | EmptyString => one
                         end
              | EmptyString => one
              end
        | EmptyString => one
        end
  end.

Fixpoint bytes (l : list nat) : string :=
  match l with
  | [] => EmptyString
  | n :: rest => String (ascii_of_nat n) (bytes rest)
  end.

(** The code points that [str.isspace] holds for: U+0009 to U+000D, U+001C to
    U+0020, U+0085, U+00A0, U+1680, U+2000 to U+200A, U+2028, U+2029, U+202F,
    U+205F and U+3000. *)
Definition whitespace : list string :=
  map bytes
      ([[9]; [10]; [11]; [12]; [13]; [28]; [29]; [30]; [31]; [32];
        [133]; [160]; [194; 133]; [194; 160]; [225; 154; 128]]
       ++ map (fun n => [226; 128; n]) [128; 129; 130; 131; 132; 133; 134; 135; 136; 137; 138]
       ++ [[226; 128; 168]; [226; 128; 169]; [226; 128; 175]; [226; 129; 159];
           [227; 128; 128]]).

(** [c.isspace()] for one code point. *)
Definition isspace (c : string) : bool :=
  existsb (String.eqb c) whitespace.

Fixpoint drop_while {A} (f : A -> bool) (l : list A) : list A :=
  match l with
  | [] => []
  | x :: rest => if f x then drop_while f rest else l
  end.

(** [s.lstrip()], [s.rstrip()] and [s.strip()] on the code points. *)
Definition lstrip_points (l : list string) : list string := drop_while isspace l.
Definition rstrip_points (l : list string) : list string := rev (drop_while isspace (rev l)).

Definition strip (s : string) : string :=
  String.concat EmptyString (rstrip_points (lstrip_points (code_points s))).

(** Truth value of a str. *)
Definition str_bool (s : string) : bool :=
  match s with EmptyString => false | _ => true end.

(** [sep.join(items)] *)
Definition join (sep : string) (items : list string) : string := String.concat sep items.

Definition str_of_int (z : Z) : string := NilZero.string_of_int (Z.to_int z).

Section Builtins.
Variable rt : Runtime.

Fixpoint py_repr (v : pyval) : string :=
  match v with
  | PNone => "None"
  | PBool true => "True"
  | PBool false => "False"
  | PInt z => str_of_int z
  | PFloat f => float_repr rt f
  | PStr s => str_repr rt s
  | PList l => "[" +++ join ", " (map py_repr l) +++ "]"
  | PDict d =>
      "{" +++ join ", " (map (fun kv => str_repr rt (fst kv) +++ ": " +++ py_repr (snd kv)) d)
      +++ "}"
  end.

(** [str(v)], which is what a replacement field of an f-string shows. *)
Definition py_str (v : pyval) : string :=
  match v with
  | PStr s => s
  | _ => py_repr v
  end.
End Builtins.

(** [v == s] for a str [s]. *)
Definition py_eq_str (v : pyval) (s : string) : bool :=
  match v with
  | PStr t => (t =? s)%string
  | _ => false
  end.

(** [d.get(k, dflt)] *)
Definition py_get (d : pyval) (k : string) (dflt : pyval) : result pyval :=
  match d with
  | PDict kv => Ok (match assoc k kv with Some v => v | None => dflt end)
  | _ => Raise AttributeError
  end.

(** [v[k]] for a str [k]. *)
Definition py_getitem (v : pyval) (k : string) : result pyval :=
  match v with
  | PDict kv => match assoc k kv with Some x => Ok x | None => Raise (KeyError k) end
  | _ => Raise TypeError
  end.

(** The characters of a str, each a str. *)
Definition chars (s : string) : list pyval := map PStr (code_points s).

(** What [for x in v] runs over. *)
Definition py_iter (v : pyval) : result (list pyval) :=
  match v with
  | PList l => Ok l
  | PStr s => Ok (chars s)
  | PDict kv => Ok (map (fun p => PStr (fst p)) kv)
  | _ => Raise TypeError
  end.

(** *** The dict [data_to_insert]

    An association list in insertion order.  A str key is overwritten in
    place.  The other hashable keys are compared within their own type only
    (Python also identifies True, 1 and 1.0): once such a key is stored the
    join of the keys raises, whatever the number of keys. *)
Definition key_eqb (a b : pyval) : bool :=
  match a, b with
  | PStr s, PStr t => (s =? t)%string
  | PNone, PNone => true
  | PBool x, PBool y => Bool.eqb x y
  | PInt x, PInt y => (x =? y)%Z
  | _, _ => false
  end.

Definition hashable (k : pyval) : bool :=
  match k with
  | PList _ | PDict _ => false
  | _ => true
  end.

Fixpoint dict_set (d : list (pyval * pyval)) (k v : pyval) : list (pyval * pyval) :=
  match d with
  | [] => [(k, v)]
  | (k', v') :: rest => if key_eqb k' k then (k', v) :: rest else (k', v') :: dict_set rest k v
  end.

(** [d[k] = v] *)
Definition dict_setitem (d : list (pyval * pyval)) (k v : pyval) : result (list (pyval * pyval)) :=
  if hashable k then Ok (dict_set d k v) else Raise TypeError.

Definition dict_keys (d : list (pyval * pyval)) : list pyval := map fst d.
Definition dict_values (d : list (pyval * pyval)) : list pyval := map snd d.

(** The items of [sep.join(items)] have to be str. *)
Fixpoint str_items (items : list pyval) : result (list string) :=
  match items with
  | [] => Ok []
  | PStr s :: rest =>
      match str_items rest with
      | Ok l => Ok (s :: l)
      | Raise e => Raise e
      end
  | _ :: _ => Raise TypeError
  end.

(** [mapM] in [M]. *)
Fixpoint for_each {A B} (f : A -> M B) (l : list A) : M (list B) :=
  match l with
  | [] => ret []
  | x :: rest => y <- f x ;; ys <- for_each f rest ;; ret (y :: ys)
  end.

(** ** The program *)

Section Program.
Variable rt : Runtime.

(** *** chat_prompt, session_chain, chat_with_memory *)

Definition SYSTEM_INSTRUCTION : string := "You are a helpful assistant.".

(** The template filled in: system message, the placeholder [history],
    the human message made of [question]. *)
Definition chat_prompt (history : list BaseMessage) (question : string)
  : list BaseMessage :=
  [SystemMessage SYSTEM_INSTRUCTION] ++ history ++ [HumanMessage question].

(** One synchronous call of the model. *)
Definition llm_invoke (msgs : list BaseMessage) : M BaseMessage :=
  fun w =>
    let w' := mkWorld (chat_history w) (stdin w) (trace w ++ [EvLLM msgs]) in
    match llm rt (trace w) msgs with
    | Ok reply => (Ok (AIMessage reply), w')
    | Raise e => (Raise e, w')
    end.

(** [session_chain = chat_prompt | llm] *)
Definition session_chain (history : list BaseMessage) (question : string)
  : M BaseMessage :=
  llm_invoke (chat_prompt history question).

Definition history_factory_config : list ConfigurableFieldSpec :=
  [ mkFieldSpec "user_id" "User ID" "Unique identifier for the user" "" true;
    mkFieldSpec "conversation_id" "Conversation ID"
                "Unique identifier for the conversation" "" true ].

Definition get_session_history (user_id conversation_id : string)
  : M PersistentChatHistory :=
  PersistentChatHistory_init user_id conversation_id.

(** [chat_with_memory.invoke({"question": question}, {"configurable": configurable})]:
    the history of the key is built, its messages fill the placeholder, the
    chain runs, and when it has returned the input message and the output
    message are added to the history. *)
Definition chat_with_memory_invoke (question : string)
           (configurable : list (string * string)) : M BaseMessage :=
  key <- lift (merge_configs rt history_factory_config configurable) ;;
  hist <- get_session_history (fst key) (snd key) ;;
  output <- session_chain (messages hist) question ;;
  add_messages rt hist [HumanMessage question; output] ;;;
  ret output.

(** *** process_schema *)

(** One item of the comprehension of [columns_sql]. *)
Definition column_sql (field : pyval) : M string :=
  n <- lift (py_getitem field "name") ;;
  t <- lift (py_getitem field "type") ;;
  ret (py_str rt n +++ " " +++ (if py_eq_str t "text" then "TEXT" else "NUMERIC")).

(** One round of the loop that fills [data_to_insert]. *)
Definition collect_field (data_to_insert : list (pyval * pyval)) (field : pyval)
  : M (list (pyval * pyval)) :=
  label <- lift (py_getitem field "label") ;;
  input_value <- input (py_str rt label +++ ": ") ;;
  ty <- lift (py_getitem field "type") ;;
  value <- (if py_eq_str ty "number"
            then match py_float rt input_value with
                 | Some x => ret (PFloat x)
                 | None => raise ValueError
                 end
            else ret (PStr input_value)) ;;
  n <- lift (py_getitem field "name") ;;
  lift (dict_setitem data_to_insert n value).

Fixpoint collect_data (fields : list pyval) (data_to_insert : list (pyval * pyval))
  : M (list (pyval * pyval)) :=
  match fields with
  | [] => ret data_to_insert
  | field :: rest =>
      d <- collect_field data_to_insert field ;;
      collect_data rest d
  end.

Definition create_table_sql (table_name : pyval) (columns_sql : string) : string :=
  "CREATE TABLE IF NOT EXISTS " +++ py_str rt table_name +++ " (" +++ columns_sql +++ ");".

Definition insert_sql (table_name : pyval) (keys : list string) (n : nat) : string :=
  "INSERT INTO " +++ py_str rt table_name +++ " (" +++ join ", " keys
  +++ ") VALUES (" +++ join ", " (repeat "%s" n) +++ ")".

Definition confirmation (table_name : pyval) : string :=
  "Data successfully saved to table '" +++ py_str rt table_name +++ "'.".

Definition process_schema (schema : pyval) : M string :=
  table_name <- lift (py_get schema "table_name" (PStr "dynamic_data")) ;;
  fields <- lift (py_get schema "fields" (PList [])) ;;
  fs <- lift (py_iter fields) ;;
  columns <- for_each column_sql fs ;;
  execute (create_table_sql table_name (join ", " columns)) None ;;;
  commit ;;;
  data_to_insert <- collect_data fs [] ;;
  keys <- lift (str_items (dict_keys data_to_insert)) ;;
  execute (insert_sql table_name keys (length data_to_insert))
          (Some (dict_values data_to_insert)) ;;;
  commit ;;;
  ret (confirmation table_name).

(** *** handle_interaction *)

Definition INVALID_JSON : string := "Invalid JSON format for schema.".

(** [history] is what the Chatbot component shows; the callback ignores it. *)
Definition handle_interaction (schema question : string)
           (history : list (string * string)) : M string :=
  if str_bool (strip schema) then
    match json_loads rt schema with
    | Some schema_dict => process_schema schema_dict
    | None => ret INVALID_JSON
    end
  else
    output <- chat_with_memory_invoke question [] ;;
    ret (content output).
End Program.

(** ** Schema descriptions *)

(** A schema as the form describes it: an optional table name and the fields
    in order, each with a name, a label and a declared type. *)
Record FieldSpec : Type := mkField {
  field_name : string;
  field_label : string;
  field_type : string
}.

Record SchemaDescription : Type := mkSchema {
  table_name : option string;
  fields : list FieldSpec
}.

(** The dict that [json.loads] hands to [process_schema] for such a schema. *)
Definition field_to_py (f : FieldSpec) : pyval :=
  PDict [("name", PStr (field_name f)); ("label", PStr (field_label f));
         ("type", PStr (field_type f))].

Definition schema_to_py (sd : SchemaDescription) : pyval :=
  PDict (match table_name sd with
         | Some t => [("table_name", PStr t)]
         | None => []
         end ++ [("fields", PList (map field_to_py (fields sd)))]).

(** *** The table a schema asks for, as the design states it *)

Inductive ColumnType : Type := TEXT | NUMERIC.

(** A column has a name and a type, and nothing else: no key, no uniqueness
    and no nullability constraint can be written. *)
Record ColumnDef : Type := mkColumn {
  column_name : string;
  column_type : ColumnType
}.

Record CreateTable : Type := mkCreateTable {
  if_not_exists : bool;
  ct_table : string;
  ct_columns : list ColumnDef
}.

Definition render_type (t : ColumnType) : string :=
  match t with TEXT => "TEXT" | NUMERIC => "NUMERIC" end.

Definition render_column (c : ColumnDef) : string :=
  column_name c +++ " " +++ render_type (column_type c).

Definition render_create_table (ct : CreateTable) : string :=
  "CREATE TABLE " +++ (if if_not_exists ct then "IF NOT EXISTS " else "")
  +++ ct_table ct +++ " (" +++ join ", " (map render_column (ct_columns ct)) +++ ");".

Definition DEFAULT_TABLE : string := "dynamic_data".

Definition table_of (sd : SchemaDescription) : string :=
  match table_name sd with Some t => t | None => DEFAULT_TABLE end.

Definition column_of_field (f : FieldSpec) : ColumnDef :=
  mkColumn (field_name f) (if (field_type f =? "text")%string then TEXT else NUMERIC).

Definition create_table_of (sd : SchemaDescription) : CreateTable :=
  mkCreateTable true (table_of sd) (map column_of_field (fields sd)).

(** *** The row a schema and the solicited lines give *)

(** The prompt shown for a field. *)
Definition prompt_of (f : FieldSpec) : Event := EvInput (field_label f +++ ": ").

(** What is kept of the line typed for a field: for a number field the float
    the line denotes, if it denotes one; for any other field the line. *)
Definition kept_value (rt : Runtime) (f : FieldSpec) (txt : string) : option pyval :=
  if (field_type f =? "number")%string
  then option_map PFloat (py_float rt txt)
  else Some (PStr txt).

(** The values kept for the fields, one line each, when every line is kept. *)
Fixpoint kept_values (rt : Runtime) (fs : list FieldSpec) (lines : list string)
  : option (list pyval) :=
  match fs, lines with
  | [], [] => Some []
  | f :: fs', txt :: lines' =>
      match kept_value rt f txt, kept_values rt fs' lines' with
      | Some v, Some vs => Some (v :: vs)
      | _, _ => None
      end
  | _, _ => None
  end.

(** The line typed for a number field is not numeric. *)
Definition not_numeric (rt : Runtime) (f : FieldSpec) (txt : string) : Prop :=
  field_type f = "number" /\ py_float rt txt = None.

(** The dict built from the fields and the values kept for them. *)
Fixpoint row_of (d : list (pyval * pyval)) (fs : list FieldSpec) (vs : list pyval)
  : list (pyval * pyval) :=
  match fs, vs with
  | f :: fs', v :: vs' => row_of (dict_set d (PStr (field_name f)) v) fs' vs'
  | _, _ => d
  end.

(** The names of the columns of the row, whatever the values: each name
    once, where it comes first. *)
Definition add_name (acc : list string) (n : string) : list string :=
  if existsb (fun k => (k =? n)%string) acc then acc else acc ++ [n].

Definition column_names (sd : SchemaDescription) : list string :=
  fold_left add_name (map field_name (fields sd)) [].

(** The text of the INSERT for a schema. *)
Definition insert_text (sd : SchemaDescription) : string :=
  "INSERT INTO " +++ table_of sd +++ " (" +++ join ", " (column_names sd)
  +++ ") VALUES (" +++ join ", " (repeat "%s" (length (column_names sd))) +++ ")".

(** [a] occurs in [s]. *)
Definition occurs_in (a s : string) : Prop := exists p q, s = p +++ a +++ q.

(** *** The two modes of the dispatcher *)

Inductive Mode : Type := SchemaMode | ChatMode.

Definition all_space (s : string) : bool := forallb isspace (code_points s).

(** Schema-mode when some character of the text is not whitespace. *)
Definition mode_of (schema_text : string) : Mode :=
  if all_space schema_text then ChatMode else SchemaMode.

(** *** What the store holds for a key *)

(** The row an appended message becomes. *)
Definition row_of_message (u c : string) (m : BaseMessage) : Row :=
  mkRow u c (if is_AIMessage m then "AI" else "Human") (content m).

(** The messages of a conversation, as its rows give them. *)
Definition conversation (u c : string) (w : World) : list BaseMessage :=
  map (fun r => message_of_row (row_message_type r, row_content r)) (rows_of u c w).

Definition insert_event (r : Row) : Event :=
  EvExecute INSERT_SQL
    (Some [PStr (row_user_id r); PStr (row_conversation_id r);
           PStr (row_message_type r); PStr (row_content r)]).

Definition select_event (u c : string) : Event :=
  EvExecute SELECT_SQL (Some [PStr u; PStr c]).

Definition delete_event (u c : string) : Event :=
  EvExecute DELETE_SQL (Some [PStr u; PStr c]).

(** *** Computations that call no model, or that prompt for nothing *)

(** A computation that only adds to the trace, and adds no call of the
    model. *)
Definition quiet {A} (m : M A) : Prop :=
  forall w, exists evs,
    trace (snd (m w)) = trace w ++ evs /\
    existsb is_llm evs = false.

(** A computation that reads no line and shows no prompt. *)
Definition silent {A} (m : M A) : Prop :=
  forall w,
    stdin (snd (m w)) = stdin w /\
    exists evs, trace (snd (m w)) = trace w ++ evs /\ existsb is_input evs = false.

(** ** A concrete runtime, for running the program on examples *)

Module Demo.

(** *** A decoder for JSON documents without escapes, fractions or exponents *)

Definition json_ws (a : ascii) : bool :=
  let n := nat_of_ascii a in
  (n =? 32)%nat || (n =? 9)%nat || (n =? 10)%nat || (n =? 13)%nat.

Fixpoint skip_ws (s : string) : string :=
  match s with
  | EmptyString => EmptyString
  | String a s' => if json_ws a then skip_ws s' else s
  end.

Definition digit (a : ascii) : option Z :=
  let n := nat_of_ascii a in
  if (48 <=? n)%nat && (n <=? 57)%nat then Some (Z.of_nat (n - 48)) else None.

Fixpoint digits (s : string) (acc : Z) : Z * string :=
  match s with
  | EmptyString => (acc, EmptyString)
  | String a s' =>
      match digit a with
      | Some d => digits s' (10 * acc + d)%Z
      | None => (acc, s)
      end
  end.

(** After the opening quote: the text up to the closing quote, and the rest. *)
Fixpoint string_body (s : string) : option (string * string) :=
  match s with
  | EmptyString => None
  | String a s' =>
      if (nat_of_ascii a =? 34)%nat then Some (EmptyString, s')
      else if (nat_of_ascii a =? 92)%nat || (nat_of_ascii a <? 32)%nat then None
      else match string_body s' with
           | Some (t, r) => Some (String a t, r)
           | None => None
           end
  end.

Fixpoint drop_prefix (p s : string) : option string :=
  match p, s with
  | EmptyString, _ => Some s
  | String a p', String b s' => if Ascii.eqb a b then drop_prefix p' s' else None
  | _, _ => None
  end.

Definition starts_number_tail (s : string) : bool :=
  match s with
  | String a _ =>
      let n := nat_of_ascii a in
      (n =? 46)%nat || (n =? 101)%nat || (n =? 69)%nat
  | EmptyString => false
  end.

(** An integer: digits without a leading zero, not followed by a fraction
    or an exponent. *)
Definition natural (s : string) : option (Z * string) :=
  match s with
  | String a s' =>
      match digit a with
      | Some 0%Z =>
          match s' with
          | String b _ =>
              match digit b with
              | Some _ => None
              | None => if starts_number_tail s' then None else Some (0%Z, s')
              end
          | EmptyString => Some (0%Z, s')
          end
      | Some _ =>
          let '(z, r) := digits s 0 in
          if starts_number_tail r then None else Some (z, r)
      | None => None
      end
  | EmptyString => None
  end.

Fixpoint set_key (d : list (string * pyval)) (k : string) (v : pyval)
  : list (string * pyval) :=
  match d with
  | [] => [(k, v)]
  | (k', v') :: rest =>
      if (k' =? k)%string then (k', v) :: rest else (k', v') :: set_key rest k v
  end.

Definition dq : ascii := ascii_of_nat 34.

Fixpoint value (fuel : nat) (s : string) : option (pyval * string) :=
  match fuel with
  | O => None
  | S n =>
      match skip_ws s with
      | EmptyString => None
      | String a r =>
          if Ascii.eqb a dq then
            match string_body r with
            | Some (t, r') => Some (PStr t, r')
            | None => None
            end
          else
            match a with
            | "["%char =>
                match skip_ws r with
                | String "]"%char r' => Some (PList [], r')
                | _ => match elements n r with
                       | Some (vs, r') => Some (PList vs, r')
                       | None => None
                       end
                end
            | "{"%char =>
                match skip_ws r with
                | String "}"%char r' => Some (PDict [], r')
                | _ => match members n r [] with
                       | Some (d, r') => Some (PDict d, r')
                       | None => None
                       end
                end
            | "-"%char =>
                match natural r with
                | Some (z, r') => Some (PInt (- z), r')
                | None => None
                end
            | _ =>
                let t := String a r in
                match drop_prefix "null" t, drop_prefix "true" t, drop_prefix "false" t with
                | Some r', _, _ => Some (PNone, r')
                | _, Some r', _ => Some (PBool true, r')
                | _, _, Some r' => Some (PBool false, r')
                | _, _, _ =>
                    match natural t with
                    | Some (z, r') => Some (PInt z, r')
                    | None => None
                    end
                end
            end
      end
  end
with elements (fuel : nat) (s : string) : option (list pyval * string) :=
  match fuel with
  | O => None
  | S n =>
      match value n s with
      | Some (v, r) =>
          match skip_ws r with
          | String ","%char r' =>
              match elements n r' with
              | Some (vs, r'') => Some (v :: vs, r'')
              | None => None
              end
          | String "]"%char r' => Some ([v], r')
          | _ => None
          end
      | None => None
      end
  end
with members (fuel : nat) (s : string) (acc : list (string * pyval))
  : option (list (string * pyval) * string) :=
  match fuel with
  | O => None
  | S n =>
      match skip_ws s with
      | EmptyString => None
      | String a r =>
          if Ascii.eqb a dq then
            match string_body r with
            | Some (k, r1) =>
                match skip_ws r1 with
                | String ":"%char r2 =>
                    match value n r2 with
                    | Some (v, r3) =>
                        match skip_ws r3 with
                        | String ","%char r4 => members n r4 (set_key acc k v)
                        | String "}"%char r4 => Some (set_key acc k v, r4)
                        | _ => None
                        end
                    | None => None
                    end
                | _ => None
                end
            | None => None
            end
          else None
      end
  end.

Definition json_loads (s : string) : option pyval :=
  match value (2 * String.length s + 2) s with
  | Some (v, r) => match skip_ws r with EmptyString => Some v | _ => None end
  | None => None
  end.

(** *** float on short decimal numerals *)

Fixpoint all_digits (s : string) : bool :=
  match s with
  | EmptyString => true
  | String a s' => match digit a with Some _ => all_digits s' | None => false end
  end.

(** [float] on one to fifteen decimal digits, where the float is the
    integer itself; the other strings are refused. *)
Definition py_float (s : string) : option float :=
  if all_digits s && (1 <=? String.length s)%nat && (String.length s <=? 15)%nat
  then Some (PrimFloat.of_uint63 (Uint63.of_Z (fst (digits s 0))))
  else None.

(** [repr] of a str without quotes or escapes. *)
Definition str_repr (s : string) : string := "'" +++ s +++ "'".

(** No example shows a float. *)
Definition float_repr (f : float) : string := "float".

(** A model that answers every prompt with the same text. *)
Definition llm (reply : string) (past : list Event) (msgs : list BaseMessage)
  : result string := Ok reply.

(** The engine that stores every new row after the rows already there. *)
Definition at_end (past : list Event) (rows : list Row) (r : Row) : nat :=
  length rows.

(** The number of rows inserted into [chat_history] so far. *)
Definition inserts_so_far (past : list Event) : nat :=
  length (filter (fun e => match e with
                           | EvExecute sql _ => (sql =? INSERT_SQL)%string
                           | _ => false
                           end) past).

(** An engine with a slot at the head of the table that a DELETE has freed
    and that is reclaimed just before the insert number [n]: that insert's
    row takes the slot; the other rows are stored after those already
    there. *)
Definition head_slot_at (n : nat) (past : list Event) (rows : list Row) (r : Row) : nat :=
  if (inserts_so_far past =? n)%nat then 0 else length rows.

Definition runtime (reply : string) : Runtime :=
  mkRuntime json_loads py_float float_repr str_repr (llm reply)
            library_merge_configs at_end.

Definition reusing_runtime (reply : string) (n : nat) : Runtime :=
  mkRuntime json_loads py_float float_repr str_repr (llm reply)
            library_merge_configs (head_slot_at n).

Definition empty_world : World := mkWorld [] [] [].

(** A document written with ' where JSON has its double quote. *)
Fixpoint document (s : string) : string :=
  match s with
  | EmptyString => EmptyString
  | String a s' => String (if Ascii.eqb a "'"%char then dq else a) (document s')
  end.

Definition people_json : string :=
  document "{'table_name':'people','fields':[{'name':'age','label':'Age','type':'number'},{'name':'name','label':'Name','type':'text'}]}".

Definition people : SchemaDescription :=
  mkSchema (Some "people")
           [mkField "age" "Age" "number"; mkField "name" "Name" "text"].

End Demo.

(** ** Further notions for the properties of the code *)

(** What an appended message is when it is loaded again: the table knows
    the tags AI and Human only. *)
Definition as_loaded (m : BaseMessage) : BaseMessage :=
  if is_AIMessage m then AIMessage (content m) else HumanMessage (content m).

Definition is_dict (v : pyval) : bool :=
  match v with PDict _ => true | _ => false end.

(** [field['name']] and [field['type']] both evaluate. *)
Definition has_name_and_type (field : pyval) : bool :=
  match py_getitem field "name", py_getitem field "type" with
  | Ok _, Ok _ => true
  | _, _ => false
  end.

(** The value a row holds for a column name. *)
Fixpoint row_lookup (d : list (pyval * pyval)) (n : string) : option pyval :=
  match d with
  | [] => None
  | (k, v) :: rest => if key_eqb k (PStr n) then Some v else row_lookup rest n
  end.

Definition is_str (v : pyval) : bool :=
  match v with PStr _ => true | _ => false end.

(** A runtime whose model cannot be reached. *)
Definition offline_runtime : Runtime :=
  mkRuntime Demo.json_loads Demo.py_float Demo.float_repr Demo.str_repr
            (fun _ _ => Raise ProviderError) library_merge_configs Demo.at_end.

(** The configuration of a call for the user ada and the conversation c1. *)
Definition ada_c1 : list (string * string) :=
  [("user_id", "ada"); ("conversation_id", "c1")].


(** Three worlds: before a call of the chain, after it, and after a second
    one. *)
Definition chat_world0 : World :=
  mkWorld [mkRow "ada" "c1" "Human" "ping"; mkRow "ada" "c1" "AI" "pong"] [] [].

Definition chat_world1 : World :=
  Eval vm_compute in
    snd (chat_with_memory_invoke (Demo.runtime "Hi") "hello" ada_c1 chat_world0).

Definition chat_world2 : World :=
  Eval vm_compute in
    snd (chat_with_memory_invoke (Demo.runtime "Hi") "again" ada_c1 chat_world1).

(** * Properties *)

(** ** Where a row is stored *)

Lemma insert_at_perm (p : nat) (r : Row) (rows : list Row) :
  Permutation (insert_at p r rows) (rows ++ [r]).
Proof.
  unfold insert_at. rewrite <- (firstn_skipn p rows) at 3.
  rewrite <- app_assoc. apply Permutation_app_head.
  apply Permutation_cons_append.
Qed.

Lemma insert_at_end (p : nat) (r : Row) (rows : list Row) :
  length rows <= p -> insert_at p r rows = rows ++ [r].
Proof.
  intros H. unfold insert_at. now rewrite firstn_all2, skipn_all2.
Qed.

Lemma filter_insert_at_other (f : Row -> bool) (p : nat) (r : Row) (rows : list Row) :
  f r = false -> filter f (insert_at p r rows) = filter f rows.
Proof.
  intros H. unfold insert_at. rewrite filter_app. cbn [filter]. rewrite H.
  now rewrite <- filter_app, firstn_skipn.
Qed.

Lemma Permutation_filter_compat {A} (f : A -> bool) (l l' : list A) :
  Permutation l l' -> Permutation (filter f l) (filter f l').
Proof.
  induction 1 as [|x l l' _ IH|x y l|l l' l'' _ IH1 _ IH2]; cbn.
  - constructor.
  - destruct (f x); [now constructor | assumption].
  - destruct (f x), (f y); try reflexivity. constructor.
  - now transitivity (filter f l').
Qed.

(** ** The conversation store *)

Lemma row_matches_refl (u c : string) (ty txt : string) :
  row_matches u c (mkRow u c ty txt) = true.
Proof.
  unfold row_matches; simpl. now rewrite !String.eqb_refl.
Qed.

Lemma add_message_run (rt : Runtime) (self : PersistentChatHistory) (m : BaseMessage)
      (w : World) :
  let r := row_of_message (user_id self) (conversation_id self) m in
  add_message rt self m w =
  (Ok (mkHistory (user_id self) (conversation_id self) (messages self ++ [m])),
   mkWorld (insert_at (insert_position rt (trace w) (chat_history w) r) r (chat_history w))
           (stdin w)
           (trace w ++ [insert_event r; EvCommit])).
Proof.
  unfold add_message, bind, execute_insert, commit, log, ret; simpl.
  now rewrite <- app_assoc.
Qed.

(** What a sequence of appends does: the object holds the messages after
    those it held; the trace has one INSERT and one commit per message, in
    order; the table has the new rows besides the old ones, which keep their
    order; and the new rows come after the old ones, in order, when the
    engine stores at the end. *)
Lemma add_messages_run (rt : Runtime) (ms : list BaseMessage) :
  forall (self : PersistentChatHistory) (w : World),
    let row := row_of_message (user_id self) (conversation_id self) in
    exists w',
      add_messages rt self ms w =
      (Ok (mkHistory (user_id self) (conversation_id self) (messages self ++ ms)), w') /\
      stdin w' = stdin w /\
      trace w' = trace w ++ flat_map (fun m => [insert_event (row m); EvCommit]) ms /\
      Permutation (chat_history w') (chat_history w ++ map row ms) /\
      (forall f, (forall m, f (row m) = false) ->
                 filter f (chat_history w') = filter f (chat_history w)) /\
      (stores_at_end rt -> chat_history w' = chat_history w ++ map row ms).
Proof.
  induction ms as [|m ms IH]; intros self w; cbv zeta.
  - exists w. cbn. unfold ret. rewrite !app_nil_r. destruct self.
    repeat split; try reflexivity.
  - cbn [add_messages]. unfold bind. rewrite add_message_run. cbv zeta.
    set (r := row_of_message (user_id self) (conversation_id self) m).
    specialize (IH (mkHistory (user_id self) (conversation_id self) (messages self ++ [m]))
                   (mkWorld (insert_at (insert_position rt (trace w) (chat_history w) r)
                                       r (chat_history w))
                            (stdin w) (trace w ++ [insert_event r; EvCommit]))).
    cbv zeta in IH. cbn [user_id conversation_id messages stdin trace chat_history] in IH.
    destruct IH as (w' & Hrun & Hin & Htr & Hperm & Hother & Hend).
    exists w'. rewrite Hrun, <- app_assoc.
    split; [reflexivity|]. split; [assumption|]. split; [|split; [|split]].
    + rewrite Htr, <- app_assoc. reflexivity.
    + rewrite Hperm. cbn [map]. fold r.
      change (chat_history w ++ r :: map (row_of_message (user_id self) (conversation_id self)) ms)
        with (chat_history w ++ [r]
              ++ map (row_of_message (user_id self) (conversation_id self)) ms).
      rewrite app_assoc. apply Permutation_app_tail, insert_at_perm.
    + intros f Hf. rewrite (Hother f Hf). apply filter_insert_at_other, Hf.
    + intros Hrt. rewrite (Hend Hrt), insert_at_end by apply Hrt.
      cbn [map]. fold r. now rewrite <- app_assoc.
Qed.

Lemma fetch_existing_messages_run (self : PersistentChatHistory) (w : World) :
  fetch_existing_messages self w =
  (Ok (conversation (user_id self) (conversation_id self) w),
   mkWorld (chat_history w) (stdin w)
           (trace w ++ [select_event (user_id self) (conversation_id self)])).
Proof.
  unfold fetch_existing_messages, bind, execute_select, ret, conversation.
  now rewrite map_map.
Qed.

Lemma init_run (u c : string) (w : World) :
  PersistentChatHistory_init u c w =
  (Ok (mkHistory u c (conversation u c w)),
   mkWorld (chat_history w) (stdin w) (trace w ++ [select_event u c])).
Proof.
  unfold PersistentChatHistory_init, bind. now rewrite fetch_existing_messages_run.
Qed.

Lemma clear_run (self : PersistentChatHistory) (w : World) :
  clear self w =
  (Ok (mkHistory (user_id self) (conversation_id self) []),
   mkWorld (filter (fun r => negb (row_matches (user_id self) (conversation_id self) r))
                   (chat_history w))
           (stdin w)
           (trace w ++ [delete_event (user_id self) (conversation_id self); EvCommit])).
Proof.
  unfold clear, bind, execute_delete, commit, log, ret; simpl.
  now rewrite <- app_assoc.
Qed.

Lemma message_of_row_of_message (u c : string) (m : BaseMessage) :
  is_chat_message m = true ->
  message_of_row (row_message_type (row_of_message u c m),
                  row_content (row_of_message u c m)) = m.
Proof.
  destruct m; simpl; intros H; try discriminate; reflexivity.
Qed.

Lemma as_loaded_row (u c : string) (m : BaseMessage) :
  message_of_row (row_message_type (row_of_message u c m),
                  row_content (row_of_message u c m)) = as_loaded m.
Proof. now destruct m. Qed.

Lemma as_loaded_chat (ms : list BaseMessage) :
  forallb is_chat_message ms = true -> map as_loaded ms = ms.
Proof.
  induction ms as [|m ms IH]; [reflexivity|]. cbn. intros H.
  apply andb_true_iff in H as [Hm Hms]. rewrite (IH Hms).
  f_equal. now destruct m.
Qed.

Lemma rows_of_appended_same (u c : string) (ms : list BaseMessage) :
  filter (row_matches u c) (map (row_of_message u c) ms) = map (row_of_message u c) ms.
Proof.
  induction ms as [|m ms IH]; [reflexivity|]. cbn [map filter].
  unfold row_of_message at 1. now rewrite row_matches_refl, IH.
Qed.

Lemma row_matches_other (u c u' c' ty txt : string) :
  (u, c) <> (u', c') -> row_matches u' c' (mkRow u c ty txt) = false.
Proof.
  intros H. unfold row_matches. cbn.
  destruct (String.eqb_spec u u') as [->|]; [|reflexivity].
  destruct (String.eqb_spec c c') as [->|]; [|reflexivity].
  now contradiction H.
Qed.

(** The messages of the rows of a key followed by appended ones. *)
Lemma conversation_of_appended (u c : string) (rows : list Row) (ms : list BaseMessage) :
  map (fun r => message_of_row (row_message_type r, row_content r))
      (filter (row_matches u c) (rows ++ map (row_of_message u c) ms)) =
  map (fun r => message_of_row (row_message_type r, row_content r))
      (filter (row_matches u c) rows) ++ map as_loaded ms.
Proof.
  rewrite filter_app, map_app, rows_of_appended_same, map_map. f_equal.
  apply map_ext. intros m. apply as_loaded_row.
Qed.

(** After appends, the key holds what it held and the appended messages, as
    they are loaded, rearranged; and in this order when the engine stores at
    the end. *)
Lemma conversation_after_appends (rt : Runtime) (self : PersistentChatHistory)
      (ms : list BaseMessage) (w : World) :
  let u := user_id self in
  let c := conversation_id self in
  let w' := snd (add_messages rt self ms w) in
  Permutation (conversation u c w') (conversation u c w ++ map as_loaded ms) /\
  (stores_at_end rt -> conversation u c w' = conversation u c w ++ map as_loaded ms).
Proof.
  cbv zeta. destruct (add_messages_run rt ms self w)
    as (w' & Hrun & _ & _ & Hperm & _ & Hend).
  rewrite Hrun. cbn [snd]. unfold conversation, rows_of. split.
  - rewrite <- conversation_of_appended.
    apply Permutation_map, Permutation_filter_compat, Hperm.
  - intros Hrt. rewrite (Hend Hrt). apply conversation_of_appended.
Qed.

(** C1, as the code has it. Appending human and ai messages to a key that
    has no rows and then building a fresh history for the key loads exactly
    the appended messages, each with its role, in the order in which the
    engine returns the rows of the key (the SELECT asks for no order): a
    rearrangement of the order of the appends, and that very order when the
    engine stores every new row after the rows already there. *)
Theorem C1_load_returns_appends
        (rt : Runtime) (self : PersistentChatHistory) (ms : list BaseMessage) (w : World) :
  rows_of (user_id self) (conversation_id self) w = [] ->
  forallb is_chat_message ms = true ->
  exists self' w' loaded,
    add_messages rt self ms w = (Ok self', w') /\
    fst (PersistentChatHistory_init (user_id self) (conversation_id self) w') =
    Ok (mkHistory (user_id self) (conversation_id self) loaded) /\
    Permutation loaded ms /\
    (stores_at_end rt -> loaded = ms).
Proof.
  intros Hempty Hchat.
  pose proof (conversation_after_appends rt self ms w) as Hconv. cbv zeta in Hconv.
  destruct (add_messages_run rt ms self w) as (w' & Hrun & _).
  rewrite Hrun in Hconv. cbn [snd] in Hconv.
  exists (mkHistory (user_id self) (conversation_id self) (messages self ++ ms)), w',
         (conversation (user_id self) (conversation_id self) w').
  split; [assumption|]. split; [now rewrite init_run|].
  assert (Hnone : conversation (user_id self) (conversation_id self) w = []).
  { unfold conversation. now rewrite Hempty. }
  rewrite Hnone, (as_loaded_chat ms Hchat) in Hconv. exact Hconv.
Qed.

Lemma C1_load_returns_appends_witness :
  let self := mkHistory "ada" "c1" [] in
  let ms := [HumanMessage "hello"; AIMessage "hi"; HumanMessage "bye"] in
  let w := mkWorld [mkRow "bob" "c1" "Human" "other"] [] [] in
  exists self' w' loaded,
    add_messages (Demo.runtime "Hi") self ms w = (Ok self', w') /\
    fst (PersistentChatHistory_init "ada" "c1" w') = Ok (mkHistory "ada" "c1" loaded) /\
    Permutation loaded ms /\
    (stores_at_end (Demo.runtime "Hi") -> loaded = ms).
Proof.
  exact (C1_load_returns_appends (Demo.runtime "Hi")
           (mkHistory "ada" "c1" [])
           [HumanMessage "hello"; AIMessage "hi"; HumanMessage "bye"]
           (mkWorld [mkRow "bob" "c1" "Human" "other"] [] [])
           eq_refl eq_refl).
Defined.

(** The engine of [Demo.runtime] stores every new row after the rows
    already there. *)
Lemma demo_runtime_stores_at_end (reply : string) : stores_at_end (Demo.runtime reply).
Proof. intros past rows r. apply le_n. Qed.

(** With it, the appended messages are loaded in the order of the appends. *)
Example appends_load_in_order :
  fst (PersistentChatHistory_init "ada" "c1"
         (snd (add_messages (Demo.runtime "Hi") (mkHistory "ada" "c1" [])
                            [HumanMessage "hello"; AIMessage "hi"; HumanMessage "bye"]
                            (mkWorld [mkRow "bob" "c1" "Human" "other"] [] []))))
  = Ok (mkHistory "ada" "c1" [HumanMessage "hello"; AIMessage "hi"; HumanMessage "bye"]).
Proof. reflexivity. Qed.

(** C1, as stated, fails when a new row is stored before an earlier one.
    The table holds a row of another key and, at its head, a slot that an
    earlier DELETE has freed; the slot is reclaimed after the first append
    and the engine gives it to the second row appended.  The key had no row;
    the two messages are appended in the order first, second; the fresh
    history loads second, first. *)
Lemma C1_order_counterexample :
  let rt := Demo.reusing_runtime "Hi" 1 in
  let w := mkWorld [mkRow "bob" "c1" "Human" "other"] []
                   [delete_event "eve" "c1"; EvCommit] in
  let w' := snd (add_messages rt (mkHistory "ada" "c1" [])
                              [HumanMessage "first"; AIMessage "second"] w) in
  rows_of "ada" "c1" w = [] /\
  chat_history w' = [mkRow "ada" "c1" "AI" "second"; mkRow "bob" "c1" "Human" "other";
                     mkRow "ada" "c1" "Human" "first"] /\
  fst (PersistentChatHistory_init "ada" "c1" w') =
  Ok (mkHistory "ada" "c1" [AIMessage "second"; HumanMessage "first"]) /\
  ~ (forall (rt : Runtime) (self : PersistentChatHistory) (ms : list BaseMessage)
            (w : World),
        rows_of (user_id self) (conversation_id self) w = [] ->
        forallb is_chat_message ms = true ->
        fst (PersistentChatHistory_init (user_id self) (conversation_id self)
                                        (snd (add_messages rt self ms w))) =
        Ok (mkHistory (user_id self) (conversation_id self) ms)).
Proof.
  cbv zeta. split; [reflexivity|]. split; [reflexivity|]. split; [reflexivity|].
  intros H.
  specialize (H (Demo.reusing_runtime "Hi" 1) (mkHistory "ada" "c1" [])
                [HumanMessage "first"; AIMessage "second"]
                (mkWorld [mkRow "bob" "c1" "Human" "other"] []
                         [delete_event "eve" "c1"; EvCommit])
                eq_refl eq_refl).
  discriminate H.
Qed.

(** A message that is neither human nor ai comes back as a human message:
    the table has two tags only. *)
Lemma system_message_loads_as_human :
  let w' := snd (add_message (Demo.runtime "Hi") (mkHistory "ada" "c1" [])
                             (SystemMessage "rules") (mkWorld [] [] [])) in
  fst (PersistentChatHistory_init "ada" "c1" w') =
  Ok (mkHistory "ada" "c1" [HumanMessage "rules"]).
Proof. reflexivity. Qed.

Lemma filter_negb_filter {A} (f : A -> bool) (l : list A) :
  filter f (filter (fun x => negb (f x)) l) = [].
Proof.
  induction l as [|x l IH]; simpl; [reflexivity|].
  destruct (f x) eqn:E; simpl; [assumption|]. now rewrite E.
Qed.

(** C7. After [clear] the history object holds no message, and a history
    built afresh for the same key loads none, whatever the table held. *)
Theorem C7_clear_then_load_is_empty (self : PersistentChatHistory) (w : World) :
  exists self' w',
    clear self w = (Ok self', w') /\
    messages self' = [] /\
    fst (PersistentChatHistory_init (user_id self) (conversation_id self) w') =
    Ok (mkHistory (user_id self) (conversation_id self) []).
Proof.
  rewrite clear_run. eexists _, _. split; [reflexivity|]. split; [reflexivity|].
  rewrite init_run. simpl. unfold conversation, rows_of. simpl.
  now rewrite filter_negb_filter.
Qed.

(** ** The chain with memory *)

Lemma chat_with_memory_invoke_ok (rt : Runtime) (question : string)
      (configurable : list (string * string)) (w w' : World) (out : BaseMessage) :
  chat_with_memory_invoke rt question configurable w = (Ok out, w') ->
  exists u c reply,
    merge_configs rt history_factory_config configurable = Ok (u, c) /\
    out = AIMessage reply /\
    llm rt (trace w ++ [select_event u c]) (chat_prompt (conversation u c w) question)
    = Ok reply /\
    trace w' = trace w ++
      [select_event u c;
       EvLLM (chat_prompt (conversation u c w) question);
       insert_event (mkRow u c "Human" question); EvCommit;
       insert_event (mkRow u c "AI" reply); EvCommit] /\
    Permutation (chat_history w')
                (chat_history w ++ [mkRow u c "Human" question; mkRow u c "AI" reply]) /\
    (forall u' c', (u, c) <> (u', c') -> rows_of u' c' w' = rows_of u' c' w) /\
    (stores_at_end rt ->
     chat_history w' = chat_history w ++ [mkRow u c "Human" question; mkRow u c "AI" reply]) /\
    stdin w' = stdin w.
Proof.
  unfold chat_with_memory_invoke, bind, lift, get_session_history.
  destruct (merge_configs rt history_factory_config configurable) as [[u c]|e];
    [|discriminate].
  rewrite init_run. cbn [fst snd messages]. unfold session_chain, llm_invoke.
  cbn [trace chat_history stdin].
  destruct (llm rt _ _) as [reply|e] eqn:Hllm; [|discriminate].
  match goal with
  | |- context [add_messages rt ?h ?ms ?w1] =>
      destruct (add_messages_run rt ms h w1)
        as (w2 & Hrun & Hin & Htr & Hperm & Hother & Hend)
  end.
  rewrite Hrun. unfold ret. intros H. injection H as <- <-.
  cbn [user_id conversation_id messages stdin trace chat_history map flat_map app
       row_of_message is_AIMessage content] in *.
  exists u, c, reply.
  split; [reflexivity|]. split; [reflexivity|]. split; [assumption|].
  split; [now rewrite Htr, <- !app_assoc|]. split; [assumption|].
  split; [|split; assumption].
  intros u' c' Hkey. unfold rows_of. apply Hother.
  intros m. now apply row_matches_other.
Qed.



(** The call of the witness, run: the model is sent the two stored messages
    of the key between the system instruction and the question. *)
Example chain_call_for_a_key :
  chat_with_memory_invoke (Demo.runtime "Hi there") "hello" ada_c1
    (mkWorld [mkRow "ada" "c1" "Human" "ping"; mkRow "bob" "c1" "Human" "other";
              mkRow "ada" "c1" "AI" "pong"] [] [])
  = (Ok (AIMessage "Hi there"),
     mkWorld [mkRow "ada" "c1" "Human" "ping"; mkRow "bob" "c1" "Human" "other";
              mkRow "ada" "c1" "AI" "pong"; mkRow "ada" "c1" "Human" "hello";
              mkRow "ada" "c1" "AI" "Hi there"] []
       [select_event "ada" "c1";
        EvLLM [SystemMessage "You are a helpful assistant."; HumanMessage "ping";
               AIMessage "pong"; HumanMessage "hello"];
        insert_event (mkRow "ada" "c1" "Human" "hello"); EvCommit;
        insert_event (mkRow "ada" "c1" "AI" "Hi there"); EvCommit]).
Proof. reflexivity. Qed.

(** ** The dispatcher *)

Lemma code_points_nonempty (s : string) :
  Forall (fun c => c <> EmptyString) (code_points s).
Proof.
  assert (H : forall n s, String.length s <= n ->
                          Forall (fun c => c <> EmptyString) (code_points s)).
  { intros n. induction n as [|n IH]; intros [|a s1] Hlen; cbn in Hlen;
      try constructor; try lia.
    assert (H1 : Forall (fun c => c <> EmptyString) (String a EmptyString :: code_points s1))
      by (constructor; [discriminate | apply IH; lia]).
    cbn [code_points]. cbv zeta.
    destruct (nat_of_ascii a <? 192)%nat; [exact H1|].
    destruct s1 as [|b s2]; [exact H1|].
    destruct (negb (is_continuation b)); [exact H1|].
    destruct (nat_of_ascii a <? 224)%nat.
    { constructor; [discriminate | apply IH; cbn in Hlen; lia]. }
    destruct s2 as [|c s3]; [exact H1|].
    destruct (negb (is_continuation c)); [exact H1|].
    destruct (nat_of_ascii a <? 240)%nat.
    { constructor; [discriminate | apply IH; cbn in Hlen; lia]. }
    destruct s3 as [|d s4]; [exact H1|].
    destruct (negb (is_continuation d)); [exact H1|].
    constructor; [discriminate | apply IH; cbn in Hlen; lia]. }
  exact (H (String.length s) s (le_n _)).
Qed.

Lemma drop_while_nil {A} (f : A -> bool) (l : list A) :
  drop_while f l = [] <-> forallb f l = true.
Proof.
  induction l as [|x l IH]; cbn; [tauto|].
  destruct (f x); cbn; [exact IH|]. split; discriminate.
Qed.

Lemma drop_while_incl {A} (f : A -> bool) (l : list A) (x : A) :
  In x (drop_while f l) -> In x l.
Proof.
  induction l as [|y l IH]; cbn; [tauto|].
  destruct (f y); [intros H; right; now apply IH | tauto].
Qed.

Lemma forallb_rev {A} (f : A -> bool) (l : list A) : forallb f (rev l) = forallb f l.
Proof.
  induction l as [|x l IH]; [reflexivity|]. cbn.
  rewrite forallb_app, IH. cbn. rewrite andb_true_r. apply andb_comm.
Qed.

Lemma rev_nil_inv {A} (l : list A) : rev l = [] -> l = [].
Proof.
  intros H. apply (f_equal (@rev A)) in H. now rewrite rev_involutive in H.
Qed.

Lemma drop_while_head {A} (f : A -> bool) (l : list A) (x : A) (rest : list A) :
  drop_while f l = x :: rest -> f x = false.
Proof.
  induction l as [|y l IH]; cbn; [discriminate|].
  destruct (f y) eqn:E; [exact IH|]. intros H. now injection H as <- _.
Qed.

Lemma concat_nonempty (l : list string) :
  Forall (fun c => c <> EmptyString) l -> l <> [] ->
  str_bool (String.concat EmptyString l) = true.
Proof.
  intros Hall Hne. destruct l as [|x l]; [contradiction|].
  inversion Hall as [|? ? Hx _]; subst.
  destruct x as [|a x]; [contradiction|]. cbn. now destruct l.
Qed.

(** Something is left of a text by [strip] exactly when one of its
    characters is not whitespace. *)
Lemma str_bool_strip (s : string) : str_bool (strip s) = negb (all_space s).
Proof.
  unfold strip, all_space, rstrip_points, lstrip_points.
  pose proof (code_points_nonempty s) as Hne.
  set (l := code_points s) in *.
  destruct (forallb isspace l) eqn:Hall; cbn [negb].
  - apply drop_while_nil in Hall. now rewrite Hall.
  - destruct (drop_while isspace l) as [|x rest] eqn:Hdrop.
    { apply drop_while_nil in Hdrop. congruence. }
    apply concat_nonempty.
    + apply Forall_forall. intros c Hc. rewrite Forall_forall in Hne. apply Hne.
      apply in_rev, drop_while_incl, in_rev in Hc.
      apply (drop_while_incl isspace). now rewrite Hdrop.
    + intros Hnil. apply rev_nil_inv, drop_while_nil in Hnil.
      rewrite forallb_rev in Hnil. cbn [forallb] in Hnil.
      apply drop_while_head in Hdrop. rewrite Hdrop in Hnil. discriminate.
Qed.

(** C3, as the code has it. When the schema text is not blank and is not
    JSON, the dispatcher returns the fixed message and leaves the world as it
    was: no statement, no commit, no prompt and no model call. *)
Theorem C3_invalid_json_touches_nothing
        (rt : Runtime) (schema question : string) (history : list (string * string))
        (w : World) :
  str_bool (strip schema) = true ->
  json_loads rt schema = None ->
  handle_interaction rt schema question history w = (Ok INVALID_JSON, w).
Proof.
  intros Hblank Hjson. unfold handle_interaction. now rewrite Hblank, Hjson.
Qed.

Lemma C3_invalid_json_touches_nothing_witness :
  handle_interaction (Demo.runtime "Hi") "not valid json" "hello" []
                     (mkWorld [mkRow "" "" "Human" "ping"] ["30"] [EvCommit])
  = (Ok "Invalid JSON format for schema.",
     mkWorld [mkRow "" "" "Human" "ping"] ["30"] [EvCommit]).
Proof.
  exact (C3_invalid_json_touches_nothing
           (Demo.runtime "Hi") "not valid json" "hello" []
           (mkWorld [mkRow "" "" "Human" "ping"] ["30"] [EvCommit])
           eq_refl eq_refl).
Defined.

(** C3, as stated, fails on a blank schema text: it is not JSON, and the
    dispatcher takes it for a chat turn.  The chain is called without a
    configuration, the merge of the library raises ValueError, and that is
    what the dispatcher lets through: the fixed message is not returned. *)
Lemma C3_blank_schema_counterexample :
  json_loads (Demo.runtime "Hi") "" = None /\
  handle_interaction (Demo.runtime "Hi") "" "hello" [] Demo.empty_world
  = (Raise ValueError, Demo.empty_world) /\
  ~ (forall (rt : Runtime) (schema question : string) (history : list (string * string))
            (w : World),
        json_loads rt schema = None ->
        handle_interaction rt schema question history w = (Ok INVALID_JSON, w)).
Proof.
  split; [reflexivity|]. split; [reflexivity|].
  intros H.
  specialize (H (Demo.runtime "Hi") "" "hello" [] Demo.empty_world eq_refl).
  discriminate H.
Qed.

(** ** The dynamic table writer *)

Section Writer.
Variable rt : Runtime.

Lemma py_get_table_name (sd : SchemaDescription) :
  py_get (schema_to_py sd) "table_name" (PStr "dynamic_data") = Ok (PStr (table_of sd)).
Proof. unfold schema_to_py, table_of. now destruct (table_name sd). Qed.

Lemma py_get_fields (sd : SchemaDescription) :
  py_get (schema_to_py sd) "fields" (PList []) = Ok (PList (map field_to_py (fields sd))).
Proof. unfold schema_to_py. now destruct (table_name sd). Qed.

Lemma column_sql_run (f : FieldSpec) (w : World) :
  column_sql rt (field_to_py f) w = (Ok (render_column (column_of_field f)), w).
Proof.
  unfold column_sql, bind, lift, ret, render_column, column_of_field. cbn.
  now destruct (field_type f =? "text")%string.
Qed.

Lemma columns_run (fs : list FieldSpec) (w : World) :
  for_each (column_sql rt) (map field_to_py fs) w =
  (Ok (map render_column (map column_of_field fs)), w).
Proof.
  induction fs as [|f fs IH]; [reflexivity|].
  cbn [map for_each]. unfold bind at 1. rewrite column_sql_run.
  unfold bind at 1. now rewrite IH.
Qed.

Lemma create_table_sql_spec (sd : SchemaDescription) :
  create_table_sql rt (PStr (table_of sd))
                   (join ", " (map render_column (map column_of_field (fields sd))))
  = render_create_table (create_table_of sd).
Proof. reflexivity. Qed.

Lemma insert_sql_spec (sd : SchemaDescription) :
  insert_sql rt (PStr (table_of sd)) (column_names sd) (length (column_names sd))
  = insert_text sd.
Proof. reflexivity. Qed.

Lemma collect_field_ok (d : list (pyval * pyval)) (f : FieldSpec) (txt : string)
      (v : pyval) (ch : list Row) (rest : list string) (tr : list Event) :
  kept_value rt f txt = Some v ->
  collect_field rt d (field_to_py f) (mkWorld ch (txt :: rest) tr) =
  (Ok (dict_set d (PStr (field_name f)) v), mkWorld ch rest (tr ++ [prompt_of f])).
Proof.
  unfold kept_value, collect_field, bind, lift, input, ret, raise, prompt_of. cbn.
  destruct (field_type f =? "number")%string.
  - destruct (py_float rt txt); cbn; intros H; [|discriminate]. now injection H as <-.
  - intros H. now injection H as <-.
Qed.

Lemma collect_field_fail (d : list (pyval * pyval)) (f : FieldSpec) (txt : string)
      (ch : list Row) (rest : list string) (tr : list Event) :
  not_numeric rt f txt ->
  collect_field rt d (field_to_py f) (mkWorld ch (txt :: rest) tr) =
  (Raise ValueError, mkWorld ch rest (tr ++ [prompt_of f])).
Proof.
  intros [Hty Hfloat].
  unfold collect_field, bind, lift, input, ret, raise, prompt_of. cbn.
  rewrite Hty, Hfloat. reflexivity.
Qed.

Lemma collect_data_ok (fs : list FieldSpec) :
  forall (lines : list string) (vs : list pyval) (d : list (pyval * pyval))
         (ch : list Row) (rest : list string) (tr : list Event),
    kept_values rt fs lines = Some vs ->
    collect_data rt (map field_to_py fs) d (mkWorld ch (lines ++ rest) tr) =
    (Ok (row_of d fs vs), mkWorld ch rest (tr ++ map prompt_of fs)).
Proof.
  induction fs as [|f fs IH]; intros [|txt lines] vs d ch rest tr H;
    cbn [kept_values] in H; try discriminate.
  - injection H as <-. cbn. unfold ret. now rewrite app_nil_r.
  - destruct (kept_value rt f txt) as [v|] eqn:Hv; [|discriminate].
    destruct (kept_values rt fs lines) as [vs'|] eqn:Hvs; [|discriminate].
    injection H as <-.
    cbn [map collect_data app]. unfold bind at 1.
    rewrite (collect_field_ok _ _ _ _ _ _ _ Hv).
    rewrite (IH _ _ _ _ _ _ Hvs). cbn [row_of]. now rewrite <- app_assoc.
Qed.

Lemma collect_data_fail (pre : list FieldSpec) :
  forall (f : FieldSpec) (post : list FieldSpec) (lines : list string) (txt : string)
         (vs : list pyval) (d : list (pyval * pyval))
         (ch : list Row) (rest : list string) (tr : list Event),
    kept_values rt pre lines = Some vs ->
    not_numeric rt f txt ->
    collect_data rt (map field_to_py (pre ++ f :: post)) d
                 (mkWorld ch (lines ++ txt :: rest) tr) =
    (Raise ValueError, mkWorld ch rest (tr ++ map prompt_of (pre ++ [f]))).
Proof.
  induction pre as [|g pre IH]; intros f post [|l lines] txt vs d ch rest tr H Hbad;
    cbn [kept_values] in H; try discriminate.
  - cbn [map collect_data app]. unfold bind at 1.
    now rewrite (collect_field_fail _ _ _ _ _ _ Hbad).
  - destruct (kept_value rt g l) as [v|] eqn:Hv; [|discriminate].
    destruct (kept_values rt pre lines) as [vs'|] eqn:Hvs; [|discriminate].
    cbn [map collect_data app]. unfold bind at 1.
    rewrite (collect_field_ok _ _ _ _ _ _ _ Hv).
    rewrite (IH _ _ _ _ _ _ _ _ _ Hvs Hbad). now rewrite <- app_assoc.
Qed.

Lemma kept_values_length (fs : list FieldSpec) :
  forall (lines : list string) (vs : list pyval),
    kept_values rt fs lines = Some vs -> length vs = length fs.
Proof.
  induction fs as [|f fs IH]; intros [|txt lines] vs H; cbn in H; try discriminate.
  - now injection H as <-.
  - destruct (kept_value rt f txt); [|discriminate].
    destruct (kept_values rt fs lines) eqn:E; [|discriminate].
    injection H as <-. cbn. f_equal. now apply (IH lines).
Qed.
End Writer.

Lemma add_name_cons (k : string) (ks : list string) (n : string) :
  (k =? n)%string = false -> add_name (k :: ks) n = k :: add_name ks n.
Proof.
  intros H. unfold add_name. cbn [existsb]. rewrite H. cbn [orb].
  now destruct (existsb _ ks).
Qed.

Lemma dict_keys_set (d : list (pyval * pyval)) :
  forall (ks : list string) (n : string) (v : pyval),
    dict_keys d = map PStr ks ->
    dict_keys (dict_set d (PStr n) v) = map PStr (add_name ks n).
Proof.
  induction d as [|[k' v'] d IH]; intros [|k ks] n v H; cbn in H; try discriminate.
  - reflexivity.
  - injection H as -> H. cbn [dict_set key_eqb].
    destruct (k =? n)%string eqn:E.
    + unfold add_name. cbn [existsb]. rewrite E. cbn. now rewrite H.
    + rewrite (add_name_cons _ _ _ E). cbn. f_equal. now apply IH.
Qed.

Lemma row_of_keys (fs : list FieldSpec) :
  forall (vs : list pyval) (d : list (pyval * pyval)) (ks : list string),
    length vs = length fs ->
    dict_keys d = map PStr ks ->
    dict_keys (row_of d fs vs) = map PStr (fold_left add_name (map field_name fs) ks).
Proof.
  induction fs as [|f fs IH]; intros [|v vs] d ks Hlen Hd; cbn in Hlen; try discriminate.
  - exact Hd.
  - cbn [row_of map fold_left]. apply IH; [now injection Hlen|].
    now apply dict_keys_set.
Qed.

Lemma str_items_map (l : list string) : str_items (map PStr l) = Ok l.
Proof.
  induction l as [|s l IH]; [reflexivity|]. cbn. now rewrite IH.
Qed.

Lemma row_of_columns (rt : Runtime) (sd : SchemaDescription) (lines : list string)
      (vs : list pyval) :
  kept_values rt (fields sd) lines = Some vs ->
  dict_keys (row_of [] (fields sd) vs) = map PStr (column_names sd).
Proof.
  intros H. apply (row_of_keys _ _ [] []); [|reflexivity].
  now apply (kept_values_length rt _ lines).
Qed.

(** [process_schema] on a schema description when every line is kept. *)
Lemma process_schema_ok (rt : Runtime) (sd : SchemaDescription) (w : World)
      (lines rest : list string) (vs : list pyval) :
  stdin w = lines ++ rest ->
  kept_values rt (fields sd) lines = Some vs ->
  process_schema rt (schema_to_py sd) w =
  (Ok (confirmation rt (PStr (table_of sd))),
   mkWorld (chat_history w) rest
           (trace w ++
            [EvExecute (render_create_table (create_table_of sd)) None; EvCommit]
            ++ map prompt_of (fields sd)
            ++ [EvExecute (insert_text sd) (Some (dict_values (row_of [] (fields sd) vs)));
                EvCommit])).
Proof.
  intros Hin Hvs. destruct w as [ch si tr]. cbn in Hin. subst si.
  unfold process_schema. unfold bind at 1. unfold lift at 1. rewrite py_get_table_name.
  unfold bind at 1. unfold lift at 1. rewrite py_get_fields.
  unfold bind at 1. unfold lift at 1. cbn [py_iter].
  unfold bind at 1. rewrite columns_run.
  unfold bind at 1. unfold execute at 1, log. cbn [chat_history stdin trace].
  unfold bind at 1. unfold commit at 1, log. cbn [chat_history stdin trace].
  unfold bind at 1. rewrite (collect_data_ok rt _ _ _ _ _ _ _ Hvs).
  unfold bind at 1. unfold lift at 1.
  rewrite (row_of_columns rt sd lines vs Hvs), str_items_map.
  assert (Hlen : length (row_of [] (fields sd) vs) = length (column_names sd)).
  { rewrite <- (length_map fst). fold (dict_keys (row_of [] (fields sd) vs)).
    rewrite (row_of_columns rt sd lines vs Hvs). apply length_map. }
  rewrite Hlen, insert_sql_spec, create_table_sql_spec.
  unfold bind, execute, commit, log, ret. cbn [chat_history stdin trace].
  repeat rewrite <- app_assoc. reflexivity.
Qed.

(** [process_schema] on a schema description when a line typed for a number
    field is not numeric and the lines before it are kept. *)
Lemma process_schema_fail (rt : Runtime) (sd : SchemaDescription) (w : World)
      (pre : list FieldSpec) (f : FieldSpec) (post : list FieldSpec)
      (lines : list string) (txt : string) (rest : list string) (vs : list pyval) :
  fields sd = pre ++ f :: post ->
  stdin w = lines ++ txt :: rest ->
  kept_values rt pre lines = Some vs ->
  not_numeric rt f txt ->
  process_schema rt (schema_to_py sd) w =
  (Raise ValueError,
   mkWorld (chat_history w) rest
           (trace w ++
            [EvExecute (render_create_table (create_table_of sd)) None; EvCommit]
            ++ map prompt_of (pre ++ [f]))).
Proof.
  intros Hfs Hin Hvs Hbad. destruct w as [ch si tr]. cbn in Hin. subst si.
  unfold process_schema. unfold bind at 1. unfold lift at 1. rewrite py_get_table_name.
  unfold bind at 1. unfold lift at 1. rewrite py_get_fields.
  unfold bind at 1. unfold lift at 1. cbn [py_iter].
  unfold bind at 1. rewrite columns_run.
  unfold bind at 1. unfold execute at 1, log. cbn [chat_history stdin trace].
  unfold bind at 1. unfold commit at 1, log. cbn [chat_history stdin trace].
  unfold bind at 1. rewrite create_table_sql_spec. rewrite Hfs at 1.
  rewrite (collect_data_fail rt _ _ _ _ _ _ _ _ _ _ Hvs Hbad).
  repeat rewrite <- app_assoc. reflexivity.
Qed.

(** *** [process_schema] never calls the model, on any value *)

Lemma quiet_ret {A} (a : A) : quiet (ret a).
Proof. intros w. exists []. cbn. now rewrite app_nil_r. Qed.

Lemma quiet_raise {A} (e : exn) : quiet (@raise A e).
Proof. intros w. exists []. cbn. now rewrite app_nil_r. Qed.

Lemma quiet_lift {A} (r : result A) : quiet (lift r).
Proof. intros w. exists []. cbn. now rewrite app_nil_r. Qed.

Lemma quiet_bind {A B} (m : M A) (k : A -> M B) :
  quiet m -> (forall a, quiet (k a)) -> quiet (bind m k).
Proof.
  intros Hm Hk w. unfold bind. destruct (Hm w) as (evs & Ht & Hl).
  destruct (m w) as [[a|e] w1]; cbn in *.
  - destruct (Hk a w1) as (evs' & Ht' & Hl').
    exists (evs ++ evs'). rewrite Ht', Ht, existsb_app, Hl, Hl'.
    now rewrite app_assoc.
  - now exists evs.
Qed.

Lemma quiet_log (e : Event) : is_llm e = false -> quiet (log e).
Proof. intros H w. exists [e]. cbn. now rewrite H. Qed.

Lemma quiet_input (prompt : string) : quiet (input prompt).
Proof.
  intros w. exists [EvInput prompt]. unfold input. now destruct (stdin w).
Qed.

Lemma quiet_for_each {A B} (f : A -> M B) (l : list A) :
  (forall a, quiet (f a)) -> quiet (for_each f l).
Proof.
  intros Hf. induction l as [|x l IH]; cbn [for_each].
  - apply quiet_ret.
  - apply quiet_bind; [apply Hf|]. intros y.
    apply quiet_bind; [exact IH|]. intros ys. apply quiet_ret.
Qed.

Create HintDb quiet.
#[local] Hint Resolve quiet_ret quiet_raise quiet_lift quiet_input : quiet.

Lemma quiet_column_sql (rt : Runtime) (field : pyval) : quiet (column_sql rt field).
Proof.
  unfold column_sql. repeat (apply quiet_bind; [auto with quiet|intros ?]).
  apply quiet_ret.
Qed.

Lemma quiet_collect_field (rt : Runtime) (d : list (pyval * pyval)) (field : pyval) :
  quiet (collect_field rt d field).
Proof.
  unfold collect_field.
  apply quiet_bind; [auto with quiet|intros label].
  apply quiet_bind; [auto with quiet|intros input_value].
  apply quiet_bind; [auto with quiet|intros ty].
  apply quiet_bind; [|intros value].
  - destruct (py_eq_str ty "number"); [|auto with quiet].
    destruct (py_float rt input_value); auto with quiet.
  - apply quiet_bind; [auto with quiet|intros n]. auto with quiet.
Qed.

Lemma quiet_collect_data (rt : Runtime) (fs : list pyval) :
  forall d, quiet (collect_data rt fs d).
Proof.
  induction fs as [|field fs IH]; intros d; cbn [collect_data].
  - apply quiet_ret.
  - apply quiet_bind; [apply quiet_collect_field|]. intros d'. apply IH.
Qed.

(** What follows the creation of the table in [process_schema]. *)
Lemma quiet_insert_row (rt : Runtime) (table : pyval) (fs : list pyval) :
  quiet (data_to_insert <- collect_data rt fs [] ;;
         keys <- lift (str_items (dict_keys data_to_insert)) ;;
         execute (insert_sql rt table keys (length data_to_insert))
                 (Some (dict_values data_to_insert)) ;;;
         commit ;;;
         ret (confirmation rt table)).
Proof.
  apply quiet_bind; [apply quiet_collect_data|intros d].
  apply quiet_bind; [auto with quiet|intros keys].
  apply quiet_bind; [now apply quiet_log|intros _].
  apply quiet_bind; [now apply quiet_log|intros _].
  apply quiet_ret.
Qed.

Lemma quiet_process_schema (rt : Runtime) (schema : pyval) :
  quiet (process_schema rt schema).
Proof.
  unfold process_schema.
  apply quiet_bind; [auto with quiet|intros table].
  apply quiet_bind; [auto with quiet|intros fields].
  apply quiet_bind; [auto with quiet|intros fs].
  apply quiet_bind; [apply quiet_for_each, quiet_column_sql|intros columns].
  apply quiet_bind; [now apply quiet_log|intros _].
  apply quiet_bind; [now apply quiet_log|intros _].
  apply quiet_insert_row.
Qed.

(** C4. For every schema description, the first thing [process_schema] does
    is to issue, without arguments, the create-if-absent statement of the
    table the description asks for (its table name or the default one; one
    column per field, in field order, TEXT for the declared type text and
    NUMERIC for any other, and nothing after the type), and to commit. *)
Theorem C4_create_table_statement (rt : Runtime) (sd : SchemaDescription) (w : World) :
  exists rest,
    trace (snd (process_schema rt (schema_to_py sd) w)) =
    trace w ++
    EvExecute (render_create_table (create_table_of sd)) None :: EvCommit :: rest.
Proof.
  unfold process_schema. unfold bind at 1. unfold lift at 1. rewrite py_get_table_name.
  unfold bind at 1. unfold lift at 1. rewrite py_get_fields.
  unfold bind at 1. unfold lift at 1. cbn [py_iter].
  unfold bind at 1. rewrite columns_run.
  unfold bind at 1. unfold execute at 1, log.
  unfold bind at 1. unfold commit at 1, log. cbn [chat_history stdin trace].
  rewrite create_table_sql_spec.
  match goal with
  | |- context [snd (?m ?w1)] =>
      destruct (quiet_insert_row rt (PStr (table_of sd))
                                 (map field_to_py (fields sd)) w1) as (evs & Ht & _)
  end.
  exists evs. rewrite Ht. cbn [trace]. now rewrite <- !app_assoc.
Qed.

Example create_table_people :
  render_create_table (create_table_of Demo.people)
  = "CREATE TABLE IF NOT EXISTS people (age NUMERIC, name TEXT);".
Proof. reflexivity. Qed.

Example create_table_default_name :
  render_create_table
    (create_table_of (mkSchema None [mkField "title" "Title" "text";
                                     mkField "pages" "Pages" "integer"]))
  = "CREATE TABLE IF NOT EXISTS dynamic_data (title TEXT, pages NUMERIC);".
Proof. reflexivity. Qed.

(** *** The values bound to the INSERT *)

Lemma kept_values_spec (rt : Runtime) (fs : list FieldSpec) :
  forall (lines : list string) (vs : list pyval),
    kept_values rt fs lines = Some vs ->
    Forall2 (fun ft v =>
               if (field_type (fst ft) =? "number")%string
               then exists x, py_float rt (snd ft) = Some x /\ v = PFloat x
               else v = PStr (snd ft))
            (combine fs lines) vs.
Proof.
  induction fs as [|f fs IH]; intros [|txt lines] vs H; cbn in H; try discriminate.
  - injection H as <-. constructor.
  - destruct (kept_value rt f txt) as [v|] eqn:Hv; [|discriminate].
    destruct (kept_values rt fs lines) as [vs'|] eqn:Hvs; [|discriminate].
    injection H as <-. cbn [combine]. constructor; [|now apply IH].
    unfold kept_value in Hv. cbn [fst snd].
    destruct (field_type f =? "number")%string.
    + destruct (py_float rt txt) as [x|]; [|discriminate].
      exists x. split; [reflexivity|]. cbn in Hv. congruence.
    + congruence.
Qed.

Lemma kept_value_none (rt : Runtime) (f : FieldSpec) (txt : string) :
  kept_value rt f txt = None <-> not_numeric rt f txt.
Proof.
  unfold kept_value, not_numeric. split.
  - destruct (field_type f =? "number")%string eqn:E; [|discriminate].
    apply String.eqb_eq in E. destruct (py_float rt txt); [discriminate|]. now split.
  - intros [-> ->]. reflexivity.
Qed.

(** When a line is not kept, there is a first one. *)
Lemma kept_values_first_failure (rt : Runtime) (fs : list FieldSpec) :
  forall (lines : list string) (f : FieldSpec) (txt : string),
    In (f, txt) (combine fs lines) ->
    not_numeric rt f txt ->
    exists pre g post l1 t l2 vs,
      fs = pre ++ g :: post /\ lines = l1 ++ t :: l2 /\
      kept_values rt pre l1 = Some vs /\ not_numeric rt g t.
Proof.
  induction fs as [|g fs IH]; intros [|t lines] f txt Hin Hbad;
    cbn in Hin; try contradiction.
  destruct (kept_value rt g t) as [v|] eqn:Hv.
  - destruct Hin as [Heq|Hin].
    + injection Heq as -> ->. apply kept_value_none in Hbad. congruence.
    + destruct (IH lines f txt Hin Hbad)
        as (pre & g' & post & l1 & t' & l2 & vs & -> & -> & Hvs & Hbad').
      exists (g :: pre), g', post, (t :: l1), t', l2, (v :: vs).
      split; [reflexivity|]. split; [reflexivity|]. split; [|assumption].
      cbn. now rewrite Hv, Hvs.
  - apply kept_value_none in Hv.
    exists [], g, fs, [], t, lines, [].
    split; [reflexivity|]. split; [reflexivity|]. split; [reflexivity | assumption].
Qed.

Lemma statements_prompts (fs : list FieldSpec) : filter is_execute (map prompt_of fs) = [].
Proof. induction fs; [reflexivity | assumption]. Qed.

(** C5. The line solicited for a number field is turned into a float before
    the row is inserted: when every line typed for a number field is numeric,
    the values bound to the INSERT are the floats for the number fields and
    the lines themselves for the others.  When a line typed for a number
    field is not numeric, [process_schema] raises ValueError, which
    [handle_interaction] does not catch, and no INSERT is issued. *)
Theorem C5_number_fields_are_floats
        (rt : Runtime) (sd : SchemaDescription) (w : World) (lines rest : list string) :
  stdin w = lines ++ rest ->
  (forall vs,
      kept_values rt (fields sd) lines = Some vs ->
      Forall2 (fun ft v =>
                 if (field_type (fst ft) =? "number")%string
                 then exists x, py_float rt (snd ft) = Some x /\ v = PFloat x
                 else v = PStr (snd ft))
              (combine (fields sd) lines) vs /\
      process_schema rt (schema_to_py sd) w =
      (Ok (confirmation rt (PStr (table_of sd))),
       mkWorld (chat_history w) rest
               (trace w ++
                [EvExecute (render_create_table (create_table_of sd)) None; EvCommit]
                ++ map prompt_of (fields sd)
                ++ [EvExecute (insert_text sd)
                              (Some (dict_values (row_of [] (fields sd) vs)));
                    EvCommit]))) /\
  (forall f txt,
      In (f, txt) (combine (fields sd) lines) ->
      not_numeric rt f txt ->
      fst (process_schema rt (schema_to_py sd) w) = Raise ValueError /\
      statements (snd (process_schema rt (schema_to_py sd) w)) =
      statements w ++ [EvExecute (render_create_table (create_table_of sd)) None] /\
      forall schema question history,
        str_bool (strip schema) = true ->
        json_loads rt schema = Some (schema_to_py sd) ->
        fst (handle_interaction rt schema question history w) = Raise ValueError).
Proof.
  intros Hin. split.
  - intros vs Hvs. split; [now apply kept_values_spec|].
    now apply (process_schema_ok rt sd w lines rest vs).
  - intros f txt Hmem Hbad.
    destruct (kept_values_first_failure rt _ _ _ _ Hmem Hbad)
      as (pre & g & post & l1 & t & l2 & vs & Hfs & -> & Hvs & Hbad').
    rewrite <- app_assoc in Hin. cbn [app] in Hin.
    pose proof (process_schema_fail rt sd w pre g post l1 t (l2 ++ rest) vs
                                    Hfs Hin Hvs Hbad') as Hrun.
    split; [now rewrite Hrun|]. split.
    + rewrite Hrun. unfold statements. cbn [snd trace].
      rewrite !filter_app, statements_prompts, app_nil_r. reflexivity.
    + intros schema question history Hs Hj. unfold handle_interaction.
      now rewrite Hs, Hj, Hrun.
Qed.

Lemma C5_number_fields_are_floats_witness :
  process_schema (Demo.runtime "Hi") (schema_to_py Demo.people)
                 (mkWorld [] ["30"; "Alice"] [])
  = (Ok "Data successfully saved to table 'people'.",
     mkWorld [] []
       [EvExecute "CREATE TABLE IF NOT EXISTS people (age NUMERIC, name TEXT);" None;
        EvCommit; EvInput "Age: "; EvInput "Name: ";
        EvExecute "INSERT INTO people (age, name) VALUES (%s, %s)"
                  (Some [PFloat 30%float; PStr "Alice"]);
        EvCommit]).
Proof.
  exact (proj2 (proj1 (C5_number_fields_are_floats
                         (Demo.runtime "Hi") Demo.people (mkWorld [] ["30"; "Alice"] [])
                         ["30"; "Alice"] [] eq_refl)
                      [PFloat 30%float; PStr "Alice"] eq_refl)).
Defined.

(** The value inserted for the line 30 is the float and not the line. *)
Example thirty_is_a_float :
  kept_value (Demo.runtime "Hi") (mkField "age" "Age" "number") "30" = Some (PFloat 30%float)
  /\ PFloat 30%float <> PStr "30".
Proof. split; [reflexivity | discriminate]. Qed.

Example not_a_number_raises :
  handle_interaction (Demo.runtime "Hi") Demo.people_json "" []
                     (mkWorld [] ["thirty"; "Alice"] [])
  = (Raise ValueError,
     mkWorld [] ["Alice"]
       [EvExecute "CREATE TABLE IF NOT EXISTS people (age NUMERIC, name TEXT);" None;
        EvCommit; EvInput "Age: "]).
Proof. reflexivity. Qed.

(** *** The text of the INSERT *)

Lemma append_assoc (a b c : string) : (a +++ b) +++ c = a +++ (b +++ c).
Proof. induction a as [|x a IH]; cbn; [reflexivity | now rewrite IH]. Qed.

Lemma occurs_in_prefix (a q : string) : occurs_in a (a +++ q).
Proof. now exists EmptyString, q. Qed.

Lemma occurs_in_append_l (a p s : string) : occurs_in a s -> occurs_in a (p +++ s).
Proof.
  intros (p0 & q & ->). exists (p +++ p0), q. now rewrite append_assoc.
Qed.

Lemma occurs_in_append_r (a s q : string) : occurs_in a s -> occurs_in a (s +++ q).
Proof.
  intros (p & q0 & ->). exists p, (q0 +++ q). now rewrite !append_assoc.
Qed.

Lemma occurs_in_self (a : string) : occurs_in a a.
Proof.
  exists EmptyString, EmptyString. cbn.
  induction a as [|x a IH]; cbn; [reflexivity | now rewrite <- IH].
Qed.

Lemma occurs_in_join (sep n : string) (l : list string) :
  In n l -> occurs_in n (join sep l).
Proof.
  unfold join. induction l as [|x l IH]; intros H; [contradiction|].
  cbn [concat]. destruct l as [|y l].
  - destruct H as [->|[]]. apply occurs_in_self.
  - destruct H as [->|H].
    + apply occurs_in_prefix.
    + apply occurs_in_append_l, occurs_in_append_l. now apply IH.
Qed.

Lemma In_add_name (acc : list string) (n m : string) :
  In m acc \/ m = n -> In m (add_name acc n).
Proof.
  unfold add_name. destruct (existsb _ acc) eqn:E.
  - intros [H| ->]; [assumption|].
    apply existsb_exists in E as (k & Hk & Heq).
    apply String.eqb_eq in Heq. now subst.
  - intros [H| ->]; apply in_or_app; [now left | right; now left].
Qed.

Lemma In_fold_add_name (l : list string) :
  forall (acc : list string) (m : string),
    In m acc \/ In m l -> In m (fold_left add_name l acc).
Proof.
  induction l as [|n l IH]; intros acc m H; cbn.
  - destruct H as [H|[]]. assumption.
  - apply IH. destruct H as [H|[->|H]].
    + left. apply In_add_name. now left.
    + left. apply In_add_name. now right.
    + now right.
Qed.

Lemma table_in_insert_text (sd : SchemaDescription) :
  occurs_in (table_of sd) (insert_text sd).
Proof.
  unfold insert_text. apply occurs_in_append_l, occurs_in_prefix.
Qed.

Lemma column_in_insert_text (sd : SchemaDescription) (f : FieldSpec) :
  In f (fields sd) -> occurs_in (field_name f) (insert_text sd).
Proof.
  intros H. unfold insert_text.
  do 3 apply occurs_in_append_l. apply occurs_in_append_r, occurs_in_join.
  unfold column_names. apply In_fold_add_name. right. now apply in_map.
Qed.

(** C8. Two runs of [process_schema] on the same schema description that
    reach the INSERT issue the same statement text, which is a function of
    the description alone; what was typed is in the bound values only.  The
    table name and every field name of the description occur in that text. *)
Theorem C8_insert_text_is_independent_of_values
        (rt : Runtime) (sd : SchemaDescription) (w1 w2 : World)
        (lines1 rest1 lines2 rest2 : list string) (vs1 vs2 : list pyval) :
  stdin w1 = lines1 ++ rest1 ->
  stdin w2 = lines2 ++ rest2 ->
  kept_values rt (fields sd) lines1 = Some vs1 ->
  kept_values rt (fields sd) lines2 = Some vs2 ->
  (exists t1 t2,
      trace (snd (process_schema rt (schema_to_py sd) w1)) =
      t1 ++ [EvExecute (insert_text sd) (Some (dict_values (row_of [] (fields sd) vs1)));
             EvCommit] /\
      trace (snd (process_schema rt (schema_to_py sd) w2)) =
      t2 ++ [EvExecute (insert_text sd) (Some (dict_values (row_of [] (fields sd) vs2)));
             EvCommit]) /\
  occurs_in (table_of sd) (insert_text sd) /\
  Forall (fun f => occurs_in (field_name f) (insert_text sd)) (fields sd).
Proof.
  intros H1 H2 Hv1 Hv2. split; [|split].
  - rewrite (process_schema_ok rt sd w1 lines1 rest1 vs1 H1 Hv1).
    rewrite (process_schema_ok rt sd w2 lines2 rest2 vs2 H2 Hv2).
    cbn [snd trace]. eexists _, _. split; rewrite !app_assoc; reflexivity.
  - apply table_in_insert_text.
  - apply Forall_forall. intros f Hf. now apply column_in_insert_text.
Qed.

Lemma C8_insert_text_is_independent_of_values_witness :
  let rt := Demo.runtime "Hi" in
  let w1 := mkWorld [] ["30"; "Alice"] [] in
  let w2 := mkWorld [] ["41"; "Bob"; "more"] [] in
  (exists t1 t2,
      trace (snd (process_schema rt (schema_to_py Demo.people) w1)) =
      t1 ++ [EvExecute "INSERT INTO people (age, name) VALUES (%s, %s)"
                       (Some [PFloat 30%float; PStr "Alice"]); EvCommit] /\
      trace (snd (process_schema rt (schema_to_py Demo.people) w2)) =
      t2 ++ [EvExecute "INSERT INTO people (age, name) VALUES (%s, %s)"
                       (Some [PFloat 41%float; PStr "Bob"]); EvCommit]) /\
  occurs_in "people" "INSERT INTO people (age, name) VALUES (%s, %s)" /\
  Forall (fun f => occurs_in (field_name f)
                             "INSERT INTO people (age, name) VALUES (%s, %s)")
         (fields Demo.people).
Proof.
  exact (C8_insert_text_is_independent_of_values
           (Demo.runtime "Hi") Demo.people
           (mkWorld [] ["30"; "Alice"] []) (mkWorld [] ["41"; "Bob"; "more"] [])
           ["30"; "Alice"] [] ["41"; "Bob"] ["more"]
           [PFloat 30%float; PStr "Alice"] [PFloat 41%float; PStr "Bob"]
           eq_refl eq_refl eq_refl eq_refl).
Defined.

(** C10. The table is created and committed before the first prompt.  When
    the line typed for a number field is not numeric, the lines before it
    being kept, [process_schema] raises ValueError after the prompt of that
    field: the creation and its commit are in the trace, no INSERT follows
    them, and the statements issued are those of before and the creation. *)
Theorem C10_creation_stays_committed
        (rt : Runtime) (sd : SchemaDescription) (w : World)
        (pre : list FieldSpec) (f : FieldSpec) (post : list FieldSpec)
        (lines : list string) (txt : string) (rest : list string) (vs : list pyval) :
  fields sd = pre ++ f :: post ->
  stdin w = lines ++ txt :: rest ->
  kept_values rt pre lines = Some vs ->
  not_numeric rt f txt ->
  exists w',
    process_schema rt (schema_to_py sd) w = (Raise ValueError, w') /\
    trace w' = trace w ++
      [EvExecute (render_create_table (create_table_of sd)) None; EvCommit]
      ++ map prompt_of (pre ++ [f]) /\
    statements w' =
    statements w ++ [EvExecute (render_create_table (create_table_of sd)) None] /\
    stdin w' = rest.
Proof.
  intros Hfs Hin Hvs Hbad. eexists. split.
  - exact (process_schema_fail rt sd w pre f post lines txt rest vs Hfs Hin Hvs Hbad).
  - split; [reflexivity|]. split; [|reflexivity].
    unfold statements. cbn [trace].
    rewrite !filter_app, statements_prompts, app_nil_r. reflexivity.
Qed.

Lemma C10_creation_stays_committed_witness :
  let sd := mkSchema (Some "people")
                     [mkField "name" "Name" "text"; mkField "age" "Age" "number";
                      mkField "city" "City" "text"] in
  exists w',
    process_schema (Demo.runtime "Hi") (schema_to_py sd)
                   (mkWorld [] ["Alice"; "thirty"; "Paris"] [])
    = (Raise ValueError, w') /\
    trace w' =
      [] ++ [EvExecute (render_create_table (create_table_of sd)) None; EvCommit]
      ++ map prompt_of ([mkField "name" "Name" "text"] ++ [mkField "age" "Age" "number"]) /\
    statements w' =
      statements (mkWorld [] ["Alice"; "thirty"; "Paris"] [])
      ++ [EvExecute (render_create_table (create_table_of sd)) None] /\
    stdin w' = ["Paris"].
Proof.
  exact (C10_creation_stays_committed
           (Demo.runtime "Hi")
           (mkSchema (Some "people")
                     [mkField "name" "Name" "text"; mkField "age" "Age" "number";
                      mkField "city" "City" "text"])
           (mkWorld [] ["Alice"; "thirty"; "Paris"] [])
           [mkField "name" "Name" "text"] (mkField "age" "Age" "number")
           [mkField "city" "City" "text"]
           ["Alice"] "thirty" ["Paris"] [PStr "Alice"]
           eq_refl eq_refl eq_refl (conj eq_refl eq_refl)).
Defined.


(** ** The two modes *)

Lemma handle_chat_mode (rt : Runtime) (schema question : string)
      (history : list (string * string)) (w : World) :
  mode_of schema = ChatMode ->
  handle_interaction rt schema question history w =
  match chat_with_memory_invoke rt question [] w with
  | (Ok out, w') => (Ok (content out), w')
  | (Raise e, w') => (Raise e, w')
  end.
Proof.
  unfold mode_of, handle_interaction. rewrite str_bool_strip.
  destruct (all_space schema); [|discriminate]. intros _. reflexivity.
Qed.

Lemma chat_with_memory_invoke_raise (rt : Runtime) (question : string)
      (configurable : list (string * string)) (w w' : World) (e : exn) :
  chat_with_memory_invoke rt question configurable w = (Raise e, w') ->
  chat_history w' = chat_history w /\
  stdin w' = stdin w /\
  ((merge_configs rt history_factory_config configurable = Raise e /\ trace w' = trace w)
   \/ exists u c,
       merge_configs rt history_factory_config configurable = Ok (u, c) /\
       llm rt (trace w ++ [select_event u c]) (chat_prompt (conversation u c w) question)
       = Raise e /\
       trace w' = trace w ++
         [select_event u c; EvLLM (chat_prompt (conversation u c w) question)]).
Proof.
  unfold chat_with_memory_invoke, bind, lift, get_session_history.
  destruct (merge_configs rt history_factory_config configurable) as [[u c]|e0].
  - rewrite init_run. cbn [fst snd messages]. unfold session_chain, llm_invoke.
    cbn [trace chat_history stdin].
    destruct (llm rt _ _) as [reply|e1] eqn:Hllm.
    + match goal with
      | |- context [add_messages rt ?h ?ms ?w1] =>
          destruct (add_messages_run rt ms h w1) as (w2 & Hrun & _)
      end.
      rewrite Hrun. discriminate.
    + intros H. injection H as <- <-. cbn. repeat split.
      right. exists u, c. repeat split; [assumption|]. now rewrite <- app_assoc.
  - intros H. injection H as <- <-. repeat split. left. now split.
Qed.

Lemma silent_chat_with_memory_invoke (rt : Runtime) (question : string)
      (configurable : list (string * string)) :
  silent (chat_with_memory_invoke rt question configurable).
Proof.
  intros w.
  destruct (chat_with_memory_invoke rt question configurable w) as [[out|e] w'] eqn:Hrun;
    cbn [snd].
  - apply chat_with_memory_invoke_ok in Hrun
      as (u & c & reply & _ & _ & _ & Htrace & _ & _ & _ & Hin).
    split; [assumption|]. eexists. split; [exact Htrace | reflexivity].
  - apply chat_with_memory_invoke_raise in Hrun as (_ & Hin & [[_ Ht]|(u & c & _ & _ & Ht)]).
    + split; [assumption|]. exists []. now rewrite app_nil_r.
    + split; [assumption|]. eexists. split; [exact Ht | reflexivity].
Qed.

(** C6. The dispatcher is in schema-mode exactly when something is left of
    the schema text once it is stripped, that is when one of its characters
    is not whitespace, and in chat-mode otherwise.  In schema-mode it decodes
    the text and hands the value to [process_schema], and the model is not
    called; in chat-mode it hands the question to the chain and returns the
    content of its output, and nothing is prompted and no line is read. *)
Theorem C6_dispatch_by_stripped_schema
        (rt : Runtime) (schema question : string) (history : list (string * string)) :
  (mode_of schema = SchemaMode <-> strip schema <> EmptyString) /\
  handle_interaction rt schema question history =
  match mode_of schema with
  | SchemaMode =>
      match json_loads rt schema with
      | Some schema_dict => process_schema rt schema_dict
      | None => ret INVALID_JSON
      end
  | ChatMode => output <- chat_with_memory_invoke rt question [] ;; ret (content output)
  end /\
  match mode_of schema with
  | SchemaMode => quiet (handle_interaction rt schema question history)
  | ChatMode => silent (handle_interaction rt schema question history)
  end.
Proof.
  pose proof (str_bool_strip schema) as H.
  unfold handle_interaction, mode_of. rewrite H.
  destruct (all_space schema); cbn [negb] in *; repeat split; try discriminate.
  - destruct (strip schema); [|discriminate]. congruence.
  - unfold bind.
    destruct (silent_chat_with_memory_invoke rt question [] w) as (Hin & _).
    now destruct (chat_with_memory_invoke rt question [] w) as [[out|e] w1].
  - unfold bind.
    destruct (silent_chat_with_memory_invoke rt question [] w) as (_ & evs & Ht & He).
    exists evs. split; [|assumption].
    now destruct (chat_with_memory_invoke rt question [] w) as [[out|e] w1].
  - destruct (strip schema); [discriminate | intros _; discriminate].
  - destruct (json_loads rt schema); [apply quiet_process_schema | apply quiet_ret].
Qed.

(** The schema of the people table, typed as JSON, goes to the writer. *)
Example schema_mode_people :
  handle_interaction (Demo.runtime "Hi") Demo.people_json "ignored" []
                     (mkWorld [] ["30"; "Alice"] [])
  = (Ok "Data successfully saved to table 'people'.",
     mkWorld [] []
       [EvExecute "CREATE TABLE IF NOT EXISTS people (age NUMERIC, name TEXT);" None;
        EvCommit; EvInput "Age: "; EvInput "Name: ";
        EvExecute "INSERT INTO people (age, name) VALUES (%s, %s)"
                  (Some [PFloat 30%float; PStr "Alice"]);
        EvCommit]).
Proof. reflexivity. Qed.

(** A text made of a no-break space, an ideographic space and a tab is
    blank: it makes a chat turn, though it is not empty. *)
Example blank_schema_of_wide_spaces :
  mode_of (bytes [194; 160; 227; 128; 128; 9]) = ChatMode /\
  mode_of (bytes [194; 160; 123; 125]) = SchemaMode.
Proof. split; reflexivity. Qed.

(** C9. The dispatcher gives the chain no configuration.  With the merge of
    the library, which raises for the keys the call leaves out whatever
    default their fields declare, every chat-mode call raises ValueError
    before a history is built: nothing is stored or loaded, under the key of
    the two empty strings or under any other. *)
Theorem C9_chat_mode_raises_without_configuration
        (rt : Runtime) (schema question : string) (history : list (string * string))
        (w : World) :
  merge_configs rt = library_merge_configs ->
  mode_of schema = ChatMode ->
  handle_interaction rt schema question history w = (Raise ValueError, w).
Proof.
  intros Hmerge Hmode. rewrite (handle_chat_mode rt _ _ _ _ Hmode).
  unfold chat_with_memory_invoke, bind, lift. now rewrite Hmerge.
Qed.

Lemma C9_chat_mode_raises_without_configuration_witness :
  handle_interaction (Demo.runtime "Hi") "" "hello" []
                     (mkWorld [mkRow "" "" "Human" "ping"] [] [])
  = (Raise ValueError, mkWorld [mkRow "" "" "Human" "ping"] [] []).
Proof.
  exact (C9_chat_mode_raises_without_configuration (Demo.runtime "Hi") "" "hello" []
           (mkWorld [mkRow "" "" "Human" "ping"] [] []) eq_refl eq_refl).
Defined.

(** Given the two keys, empty as the declared defaults are, the same call of
    the chain is stored under the key of the two empty strings. *)
Example chain_call_with_empty_keys :
  chat_with_memory_invoke (Demo.runtime "Hi") "hello"
                          [("user_id", ""); ("conversation_id", "")] Demo.empty_world
  = (Ok (AIMessage "Hi"),
     mkWorld [mkRow "" "" "Human" "hello"; mkRow "" "" "AI" "Hi"] []
       [select_event "" "";
        EvLLM [SystemMessage "You are a helpful assistant."; HumanMessage "hello"];
        insert_event (mkRow "" "" "Human" "hello"); EvCommit;
        insert_event (mkRow "" "" "AI" "Hi"); EvCommit]).
Proof. reflexivity. Qed.

(** * Further properties of the code *)

(** ** The conversation store, key by key *)

(** X1. Appending to one key changes nothing for any other key: a history
    built for another key after the appends loads what it loaded before. *)
Theorem appends_leave_other_keys
        (rt : Runtime) (self : PersistentChatHistory) (ms : list BaseMessage) (w : World)
        (u' c' : string) :
  (user_id self, conversation_id self) <> (u', c') ->
  fst (PersistentChatHistory_init u' c' (snd (add_messages rt self ms w))) =
  fst (PersistentChatHistory_init u' c' w).
Proof.
  intros H. rewrite !init_run. cbn [fst]. do 2 f_equal.
  destruct (add_messages_run rt ms self w) as (w' & Hrun & _ & _ & _ & Hother & _).
  rewrite Hrun. cbn [snd]. unfold conversation, rows_of. f_equal.
  apply Hother. intros m. now apply row_matches_other.
Qed.

Lemma appends_leave_other_keys_witness :
  fst (PersistentChatHistory_init "bob" "c1"
         (snd (add_messages (Demo.reusing_runtime "Hi" 1) (mkHistory "ada" "c1" [])
                            [HumanMessage "hello"; AIMessage "hi"]
                            (mkWorld [mkRow "bob" "c1" "Human" "other"] [] [])))) =
  fst (PersistentChatHistory_init "bob" "c1"
         (mkWorld [mkRow "bob" "c1" "Human" "other"] [] [])).
Proof.
  apply (appends_leave_other_keys (Demo.reusing_runtime "Hi" 1) (mkHistory "ada" "c1" [])
           [HumanMessage "hello"; AIMessage "hi"]
           (mkWorld [mkRow "bob" "c1" "Human" "other"] [] []) "bob" "c1").
  discriminate.
Defined.

(** X2. Whatever the table holds for the key and whatever the messages are,
    a history built after the appends loads the messages that were there and
    the appended ones, each appended message as an ai message when it was one
    and as a human message otherwise, nothing else and nothing twice; they
    come in the order in which the engine returns the rows, which is the
    earlier messages followed by the appended ones in order when the engine
    stores every new row after the rows already there.  A message comes back
    as it was exactly when it is a human or an ai message. *)
Theorem load_after_appends
        (rt : Runtime) (self : PersistentChatHistory) (ms : list BaseMessage) (w : World) :
  exists loaded,
    fst (PersistentChatHistory_init (user_id self) (conversation_id self)
                                    (snd (add_messages rt self ms w))) =
    Ok (mkHistory (user_id self) (conversation_id self) loaded) /\
    Permutation loaded
                (conversation (user_id self) (conversation_id self) w ++ map as_loaded ms) /\
    (stores_at_end rt ->
     loaded = conversation (user_id self) (conversation_id self) w ++ map as_loaded ms) /\
    (forall m, as_loaded m = m <-> is_chat_message m = true).
Proof.
  pose proof (conversation_after_appends rt self ms w) as [Hperm Hend].
  eexists. split; [now rewrite init_run|]. split; [exact Hperm|]. split; [exact Hend|].
  intros [t|t|t]; cbn; split; try reflexivity; discriminate.
Qed.

(** The same appends under two engines: stored at the end, and with the slot
    at the head of the table given to the second row. *)
Example load_after_appends_two_engines :
  let self := mkHistory "ada" "c1" [] in
  let ms := [HumanMessage "again"; SystemMessage "rules"] in
  let w := mkWorld [mkRow "ada" "c1" "AI" "pong"] [] [] in
  fst (PersistentChatHistory_init "ada" "c1"
         (snd (add_messages (Demo.runtime "Hi") self ms w)))
  = Ok (mkHistory "ada" "c1" [AIMessage "pong"; HumanMessage "again"; HumanMessage "rules"])
  /\
  fst (PersistentChatHistory_init "ada" "c1"
         (snd (add_messages (Demo.reusing_runtime "Hi" 1) self ms w)))
  = Ok (mkHistory "ada" "c1" [HumanMessage "rules"; AIMessage "pong"; HumanMessage "again"]).
Proof. split; reflexivity. Qed.

Lemma filter_filter_negb_other {A} (f g : A -> bool) (l : list A) :
  (forall x, g x = true -> f x = false) ->
  filter g (filter (fun x => negb (f x)) l) = filter g l.
Proof.
  intros H. induction l as [|x l IH]; [reflexivity|]. cbn [filter].
  destruct (f x) eqn:Ef; cbn [negb].
  - destruct (g x) eqn:Eg; [|assumption]. apply H in Eg. congruence.
  - cbn [filter]. destruct (g x); [now rewrite IH | assumption].
Qed.

Lemma row_matches_exclusive (u c u' c' : string) (r : Row) :
  (u, c) <> (u', c') -> row_matches u' c' r = true -> row_matches u c r = false.
Proof.
  unfold row_matches. intros H E. apply andb_true_iff in E as [E1 E2].
  apply String.eqb_eq in E1, E2.
  destruct (String.eqb_spec (row_user_id r) u) as [<-|]; [|reflexivity].
  destruct (String.eqb_spec (row_conversation_id r) c) as [<-|]; [|reflexivity].
  contradiction H. now rewrite E1, E2.
Qed.

(** X3. [clear] removes the rows of its own key only: a history built for
    another key afterwards loads what it loaded before. *)
Theorem clear_leaves_other_keys
        (self : PersistentChatHistory) (w : World) (u' c' : string) :
  (user_id self, conversation_id self) <> (u', c') ->
  fst (PersistentChatHistory_init u' c' (snd (clear self w))) =
  fst (PersistentChatHistory_init u' c' w).
Proof.
  intros H. rewrite !init_run, clear_run. cbn [fst snd]. do 2 f_equal.
  unfold conversation, rows_of. cbn [chat_history]. f_equal.
  apply filter_filter_negb_other. intros r. now apply row_matches_exclusive.
Qed.

Lemma clear_leaves_other_keys_witness :
  fst (PersistentChatHistory_init "bob" "c1"
         (snd (clear (mkHistory "ada" "c1" [])
                     (mkWorld [mkRow "ada" "c1" "Human" "hello";
                               mkRow "bob" "c1" "Human" "other";
                               mkRow "ada" "c1" "AI" "hi"] [] [])))) =
  fst (PersistentChatHistory_init "bob" "c1"
         (mkWorld [mkRow "ada" "c1" "Human" "hello";
                   mkRow "bob" "c1" "Human" "other";
                   mkRow "ada" "c1" "AI" "hi"] [] [])).
Proof.
  apply (clear_leaves_other_keys (mkHistory "ada" "c1" [])
           (mkWorld [mkRow "ada" "c1" "Human" "hello";
                     mkRow "bob" "c1" "Human" "other";
                     mkRow "ada" "c1" "AI" "hi"] [] []) "bob" "c1").
  discriminate.
Defined.

(** X4. The list a history object holds and the table hold the same
    messages: for an object built by the constructor, after any appends of
    human and ai messages its [messages] are those a history built afresh
    loads, nothing missing and nothing twice; the two lists are equal when
    the engine stores every new row after the rows already there. *)
Theorem cached_messages_agree_with_table
        (rt : Runtime) (u c : string) (ms : list BaseMessage) (w : World) :
  forallb is_chat_message ms = true ->
  exists self w1 self' w2 fresh w3,
    PersistentChatHistory_init u c w = (Ok self, w1) /\
    add_messages rt self ms w1 = (Ok self', w2) /\
    PersistentChatHistory_init u c w2 = (Ok fresh, w3) /\
    Permutation (messages self') (messages fresh) /\
    (stores_at_end rt -> messages self' = messages fresh).
Proof.
  intros H. rewrite init_run.
  set (self := mkHistory u c (conversation u c w)).
  set (w1 := mkWorld (chat_history w) (stdin w) (trace w ++ [select_event u c])).
  pose proof (conversation_after_appends rt self ms w1) as [Hperm Hend].
  destruct (add_messages_run rt ms self w1) as (w2 & Hrun & _).
  rewrite Hrun in Hperm, Hend. cbn [snd user_id conversation_id self] in Hperm, Hend.
  rewrite (as_loaded_chat ms H) in Hperm, Hend.
  exists self, w1. eexists _, w2. rewrite Hrun, init_run. eexists _, _.
  repeat (split; [reflexivity|]). cbn [messages user_id conversation_id self].
  change (conversation u c w1) with (conversation u c w) in Hperm, Hend.
  split.
  - now symmetry.
  - intros Hrt. symmetry. now apply Hend.
Qed.

Lemma cached_messages_agree_with_table_witness :
  exists self w1 self' w2 fresh w3,
    PersistentChatHistory_init "ada" "c1"
      (mkWorld [mkRow "ada" "c1" "Human" "hello"; mkRow "ada" "c1" "AI" "hi"] [] [])
    = (Ok self, w1) /\
    add_messages (Demo.runtime "Hi") self [HumanMessage "again"; AIMessage "yes"] w1
    = (Ok self', w2) /\
    PersistentChatHistory_init "ada" "c1" w2 = (Ok fresh, w3) /\
    Permutation (messages self') (messages fresh) /\
    (stores_at_end (Demo.runtime "Hi") -> messages self' = messages fresh).
Proof.
  exact (cached_messages_agree_with_table (Demo.runtime "Hi") "ada" "c1"
           [HumanMessage "again"; AIMessage "yes"]
           (mkWorld [mkRow "ada" "c1" "Human" "hello"; mkRow "ada" "c1" "AI" "hi"] [] [])
           eq_refl).
Defined.

(** ** Chat turns *)

(** X5. A chat turn that raises has stored nothing and read nothing: either
    the configuration merge raised and nothing at all was done, or the history
    was loaded, the model was called once and raised, and the turn ends
    there with the exception of the model. *)
Theorem failed_chat_turn_stores_nothing
        (rt : Runtime) (schema question : string) (history : list (string * string))
        (w w' : World) (e : exn) :
  mode_of schema = ChatMode ->
  handle_interaction rt schema question history w = (Raise e, w') ->
  chat_history w' = chat_history w /\
  stdin w' = stdin w /\
  ((merge_configs rt history_factory_config [] = Raise e /\ trace w' = trace w)
   \/ exists u c,
       merge_configs rt history_factory_config [] = Ok (u, c) /\
       llm rt (trace w ++ [select_event u c]) (chat_prompt (conversation u c w) question)
       = Raise e /\
       trace w' = trace w ++
         [select_event u c; EvLLM (chat_prompt (conversation u c w) question)]).
Proof.
  intros Hmode. rewrite (handle_chat_mode rt _ _ _ _ Hmode).
  destruct (chat_with_memory_invoke rt question [] w) as [[out|e0] w0] eqn:Hrun;
    [discriminate|].
  intros H. injection H as <- <-. now apply chat_with_memory_invoke_raise in Hrun.
Qed.

Lemma failed_chat_turn_stores_nothing_witness :
  let w := mkWorld [mkRow "" "" "Human" "ping"] ["line"] [] in
  exists w',
    handle_interaction (Demo.runtime "Hi") "" "hello" [] w = (Raise ValueError, w') /\
    chat_history w' = chat_history w /\
    stdin w' = stdin w /\
    ((merge_configs (Demo.runtime "Hi") history_factory_config [] = Raise ValueError
      /\ trace w' = trace w)
     \/ exists u c,
         merge_configs (Demo.runtime "Hi") history_factory_config [] = Ok (u, c) /\
         llm (Demo.runtime "Hi") (trace w ++ [select_event u c])
             (chat_prompt (conversation u c w) "hello") = Raise ValueError /\
         trace w' = trace w ++
           [select_event u c; EvLLM (chat_prompt (conversation u c w) "hello")]).
Proof.
  eexists. split; [reflexivity|].
  exact (failed_chat_turn_stores_nothing (Demo.runtime "Hi") "" "hello" []
           (mkWorld [mkRow "" "" "Human" "ping"] ["line"] []) _ ValueError
           eq_refl eq_refl).
Defined.

(** A call of the chain whose model cannot be reached: the history is
    loaded, the model is called, and nothing is stored. *)
Example failed_model_call_stores_nothing :
  chat_with_memory_invoke offline_runtime "hello" ada_c1
                          (mkWorld [mkRow "ada" "c1" "Human" "ping"] [] [])
  = (Raise ProviderError,
     mkWorld [mkRow "ada" "c1" "Human" "ping"] []
       [select_event "ada" "c1";
        EvLLM [SystemMessage "You are a helpful assistant."; HumanMessage "ping";
               HumanMessage "hello"]]).
Proof. reflexivity. Qed.

Lemma conversation_of_permuted (u c : string) (w w' : World)
      (question reply : string) :
  Permutation (chat_history w')
              (chat_history w ++ [mkRow u c "Human" question; mkRow u c "AI" reply]) ->
  Permutation (conversation u c w')
              (conversation u c w ++ [HumanMessage question; AIMessage reply]).
Proof.
  intros H. unfold conversation, rows_of.
  apply (Permutation_filter_compat (row_matches u c)) in H.
  apply (Permutation_map (fun r => message_of_row (row_message_type r, row_content r))) in H.
  rewrite filter_app, map_app in H. cbn [filter] in H.
  rewrite !row_matches_refl in H. exact H.
Qed.

Lemma conversation_of_appended_two (u c : string) (w w' : World)
      (question reply : string) :
  chat_history w' = chat_history w ++ [mkRow u c "Human" question; mkRow u c "AI" reply] ->
  conversation u c w' = conversation u c w ++ [HumanMessage question; AIMessage reply].
Proof.
  intros H. unfold conversation, rows_of. rewrite H, filter_app, map_app. f_equal.
  cbn [filter]. now rewrite !row_matches_refl.
Qed.

(** X6. Calls of the chain for one key accumulate: when two calls in a row
    with the same configuration return, the model is sent in the second one
    the system instruction, then what the store returns for the key, then the
    second question; what the store returns is what the key held before the
    first call, the first question and the first reply, nothing else and
    nothing twice, and in this order when the engine stores every new row
    after the rows already there. *)
Theorem second_call_is_sent_the_first
        (rt : Runtime) (question1 question2 : string)
        (configurable : list (string * string))
        (w w1 w2 : World) (out1 out2 : BaseMessage) :
  chat_with_memory_invoke rt question1 configurable w = (Ok out1, w1) ->
  chat_with_memory_invoke rt question2 configurable w1 = (Ok out2, w2) ->
  exists u c prior,
    trace w2 = trace w1 ++
      [select_event u c;
       EvLLM ([SystemMessage SYSTEM_INSTRUCTION] ++ prior ++ [HumanMessage question2]);
       insert_event (mkRow u c "Human" question2); EvCommit;
       insert_event (mkRow u c "AI" (content out2)); EvCommit] /\
    Permutation prior (conversation u c w ++ [HumanMessage question1; out1]) /\
    (stores_at_end rt -> prior = conversation u c w ++ [HumanMessage question1; out1]).
Proof.
  intros H1 H2.
  apply chat_with_memory_invoke_ok in H1
    as (u & c & r1 & Hkey & -> & _ & _ & Hperm & _ & Hend & _).
  apply chat_with_memory_invoke_ok in H2
    as (u' & c' & r2 & Hkey' & -> & _ & Htrace & _).
  rewrite Hkey in Hkey'. injection Hkey' as <- <-.
  exists u, c, (conversation u c w1). cbn [content]. split; [exact Htrace|]. split.
  - now apply conversation_of_permuted.
  - intros Hrt. now apply conversation_of_appended_two, Hend.
Qed.

Lemma second_call_is_sent_the_first_witness :
  chat_with_memory_invoke (Demo.runtime "Hi") "hello" ada_c1 chat_world0
  = (Ok (AIMessage "Hi"), chat_world1) /\
  chat_with_memory_invoke (Demo.runtime "Hi") "again" ada_c1 chat_world1
  = (Ok (AIMessage "Hi"), chat_world2) /\
  exists u c prior,
    trace chat_world2 = trace chat_world1 ++
      [select_event u c;
       EvLLM ([SystemMessage SYSTEM_INSTRUCTION] ++ prior ++ [HumanMessage "again"]);
       insert_event (mkRow u c "Human" "again"); EvCommit;
       insert_event (mkRow u c "AI" (content (AIMessage "Hi"))); EvCommit] /\
    Permutation prior (conversation u c chat_world0
                       ++ [HumanMessage "hello"; AIMessage "Hi"]) /\
    (stores_at_end (Demo.runtime "Hi") ->
     prior = conversation u c chat_world0 ++ [HumanMessage "hello"; AIMessage "Hi"]).
Proof.
  assert (H1 : chat_with_memory_invoke (Demo.runtime "Hi") "hello" ada_c1 chat_world0
               = (Ok (AIMessage "Hi"), chat_world1)) by (vm_compute; reflexivity).
  assert (H2 : chat_with_memory_invoke (Demo.runtime "Hi") "again" ada_c1 chat_world1
               = (Ok (AIMessage "Hi"), chat_world2)) by (vm_compute; reflexivity).
  split; [exact H1|]. split; [exact H2|].
  exact (second_call_is_sent_the_first
           (Demo.runtime "Hi") "hello" "again" ada_c1
           chat_world0 chat_world1 chat_world2 (AIMessage "Hi") (AIMessage "Hi") H1 H2).
Defined.

(** ** [process_schema] on any decoded value *)

Lemma column_sql_cases (rt : Runtime) (field : pyval) (w : World) :
  (has_name_and_type field = true /\ exists t, column_sql rt field w = (Ok t, w))
  \/ (has_name_and_type field = false /\
      exists e, column_sql rt field w = (Raise e, w) /\
                (e = TypeError \/ e = KeyError "name" \/ e = KeyError "type")).
Proof.
  unfold has_name_and_type, column_sql, bind, lift, ret.
  destruct (py_getitem field "name") as [n|e1] eqn:E1.
  - destruct (py_getitem field "type") as [t|e2] eqn:E2.
    + left. split; [reflexivity|]. eexists. reflexivity.
    + right. split; [reflexivity|]. exists e2. split; [reflexivity|].
      destruct field; cbn in E2; try (injection E2 as <-; now left).
      destruct (assoc "type" d); [discriminate|]. injection E2 as <-. now right; right.
  - right. split; [reflexivity|]. exists e1. split; [reflexivity|].
    destruct field; cbn in E1; try (injection E1 as <-; now left).
    destruct (assoc "name" d); [discriminate|]. injection E1 as <-. now right; left.
Qed.


Lemma columns_fail (rt : Runtime) (fs : list pyval) (w : World) :
  forallb has_name_and_type fs = false ->
  exists e, for_each (column_sql rt) fs w = (Raise e, w) /\
            (e = TypeError \/ e = KeyError "name" \/ e = KeyError "type").
Proof.
  induction fs as [|field fs IH]; intros H; [discriminate|].
  cbn in H. cbn [for_each]. unfold bind at 1.
  destruct (column_sql_cases rt field w) as [(Hyes & t & Ht)|(_ & e & He & Hkind)].
  - rewrite Hyes in H. cbn in H. destruct (IH H) as (e & He & Hkind).
    exists e. split; [|assumption]. rewrite Ht. unfold bind. now rewrite He.
  - exists e. split; [|assumption]. now rewrite He.
Qed.

(** X7. A schema text that decodes to something that is not an object (a
    list, a number, a string, true, false, null) is not answered with the
    invalid-format message: [process_schema] raises AttributeError, the
    dispatcher lets it through, and nothing has been done. *)
Theorem non_object_schema_raises
        (rt : Runtime) (schema question : string) (history : list (string * string))
        (w : World) (v : pyval) :
  str_bool (strip schema) = true ->
  json_loads rt schema = Some v ->
  is_dict v = false ->
  handle_interaction rt schema question history w = (Raise AttributeError, w).
Proof.
  intros Hs Hj Hv. unfold handle_interaction. rewrite Hs, Hj.
  destruct v; try discriminate; reflexivity.
Qed.

Lemma non_object_schema_raises_witness :
  handle_interaction (Demo.runtime "Hi") "[1, 2]" "hello" [] (mkWorld [] ["30"] [])
  = (Raise AttributeError, mkWorld [] ["30"] []).
Proof.
  exact (non_object_schema_raises (Demo.runtime "Hi") "[1, 2]" "hello" []
           (mkWorld [] ["30"] []) (PList [PInt 1; PInt 2]) eq_refl eq_refl eq_refl).
Defined.

(** X8. The fields are checked before the table is created: when one of
    them is not an object with both a name and a type, [process_schema]
    raises TypeError or KeyError and nothing has been done; no table exists
    for a schema with such a field. *)
Theorem malformed_field_creates_nothing
        (rt : Runtime) (schema fields : pyval) (fs : list pyval) (w : World) :
  py_get schema "fields" (PList []) = Ok fields ->
  py_iter fields = Ok fs ->
  forallb has_name_and_type fs = false ->
  exists e,
    process_schema rt schema w = (Raise e, w) /\
    (e = TypeError \/ e = KeyError "name" \/ e = KeyError "type").
Proof.
  intros Hget Hiter Hbad.
  destruct (columns_fail rt fs w Hbad) as (e & He & Hkind).
  exists e. split; [|assumption].
  unfold process_schema. unfold bind at 1. unfold lift at 1.
  destruct schema; try discriminate.
  cbn [py_get] in Hget |- *. injection Hget as Hget.
  unfold bind at 1. unfold lift at 1. rewrite Hget.
  unfold bind at 1. unfold lift at 1. rewrite Hiter.
  unfold bind at 1. now rewrite He.
Qed.

Lemma malformed_field_creates_nothing_witness :
  exists e,
    process_schema (Demo.runtime "Hi")
      (PDict [("table_name", PStr "people");
              ("fields", PList [field_to_py (mkField "age" "Age" "number");
                                PDict [("name", PStr "city"); ("label", PStr "City")]])])
      (mkWorld [] ["30"; "Paris"] [])
    = (Raise e, mkWorld [] ["30"; "Paris"] []) /\
    (e = TypeError \/ e = KeyError "name" \/ e = KeyError "type").
Proof.
  exact (malformed_field_creates_nothing (Demo.runtime "Hi")
           (PDict [("table_name", PStr "people");
                   ("fields", PList [field_to_py (mkField "age" "Age" "number");
                                     PDict [("name", PStr "city"); ("label", PStr "City")]])])
           _ _ (mkWorld [] ["30"; "Paris"] []) eq_refl eq_refl eq_refl).
Defined.










(** ** [process_schema] when a prompt cannot be answered *)

Lemma collect_data_app (rt : Runtime) (xs ys : list pyval) :
  forall (d : list (pyval * pyval)) (w : World),
    collect_data rt (xs ++ ys) d w =
    match collect_data rt xs d w with
    | (Ok d', w') => collect_data rt ys d' w'
    | (Raise e, w') => (Raise e, w')
    end.
Proof.
  induction xs as [|x xs IH]; intros d w; [reflexivity|].
  cbn [app collect_data]. unfold bind.
  destruct (collect_field rt d x w) as [[d1|e] w1]; [apply IH | reflexivity].
Qed.




(** X11. When the terminal has no line left for a field, the lines before
    having been kept, [process_schema] raises EOFError at the prompt of that
    field: the prompt has been shown, the table has been created and
    committed, and no row is inserted. *)
Theorem input_exhausted_after_creation
        (rt : Runtime) (sd : SchemaDescription) (w : World)
        (pre : list FieldSpec) (f : FieldSpec) (post : list FieldSpec)
        (lines : list string) (vs : list pyval) :
  fields sd = pre ++ f :: post ->
  stdin w = lines ->
  kept_values rt pre lines = Some vs ->
  process_schema rt (schema_to_py sd) w =
  (Raise EOFError,
   mkWorld (chat_history w) []
           (trace w ++
            [EvExecute (render_create_table (create_table_of sd)) None; EvCommit]
            ++ map prompt_of (pre ++ [f]))).
Proof.
  intros Hfs Hin Hvs. destruct w as [ch si tr]. cbn in Hin. subst si.
  unfold process_schema. unfold bind at 1. unfold lift at 1. rewrite py_get_table_name.
  unfold bind at 1. unfold lift at 1. rewrite py_get_fields.
  unfold bind at 1. unfold lift at 1. cbn [py_iter].
  unfold bind at 1. rewrite columns_run.
  unfold bind at 1. unfold execute at 1, log. cbn [chat_history stdin trace].
  unfold bind at 1. unfold commit at 1, log. cbn [chat_history stdin trace].
  unfold bind at 1. rewrite create_table_sql_spec. rewrite Hfs at 1.
  rewrite map_app, collect_data_app.
  rewrite <- (app_nil_r lines) at 1.
  rewrite (collect_data_ok rt _ _ _ _ _ _ _ Hvs).
  cbn [map collect_data]. unfold bind at 1.
  unfold collect_field, bind, lift, input. cbn.
  rewrite map_app. cbn [map]. unfold prompt_of at 2.
  now rewrite <- !app_assoc.
Qed.

Lemma input_exhausted_after_creation_witness :
  process_schema (Demo.runtime "Hi") (schema_to_py Demo.people) (mkWorld [] ["30"] [])
  = (Raise EOFError,
     mkWorld [] []
       ([] ++ [EvExecute (render_create_table (create_table_of Demo.people)) None; EvCommit]
        ++ map prompt_of ([mkField "age" "Age" "number"] ++ [mkField "name" "Name" "text"]))).
Proof.
  exact (input_exhausted_after_creation (Demo.runtime "Hi") Demo.people
           (mkWorld [] ["30"] [])
           [mkField "age" "Age" "number"] (mkField "name" "Name" "text") []
           ["30"] [PFloat 30%float] eq_refl eq_refl eq_refl).
Defined.

(** ** The row that is inserted *)

Lemma existsb_eqb_false (acc : list string) (n : string) :
  ~ In n acc -> existsb (fun k => (k =? n)%string) acc = false.
Proof.
  intros H. induction acc as [|k acc IH]; [reflexivity|]. cbn.
  destruct (String.eqb_spec k n) as [->|].
  - contradiction H. now left.
  - apply IH. intros Hin. apply H. now right.
Qed.

Lemma fold_add_name_distinct (names : list string) :
  forall acc, NoDup (acc ++ names) -> fold_left add_name names acc = acc ++ names.
Proof.
  induction names as [|n names IH]; intros acc H; cbn.
  - now rewrite app_nil_r.
  - assert (Hn : ~ In n acc).
    { apply NoDup_remove_2 in H. intros Hin. apply H. apply in_or_app. now left. }
    unfold add_name at 2. rewrite (existsb_eqb_false _ _ Hn).
    rewrite IH; rewrite <- app_assoc; [reflexivity | exact H].
Qed.

Lemma dict_set_fresh (d : list (pyval * pyval)) :
  forall (ks : list string) (n : string) (v : pyval),
    dict_keys d = map PStr ks -> ~ In n ks ->
    dict_set d (PStr n) v = d ++ [(PStr n, v)].
Proof.
  induction d as [|[k' v'] d IH]; intros [|k ks] n v H Hn; cbn in H; try discriminate.
  - reflexivity.
  - injection H as -> H. cbn [dict_set key_eqb].
    destruct (String.eqb_spec k n) as [->|].
    + contradiction Hn. now left.
    + cbn. f_equal. apply (IH ks); [assumption|]. intros Hin. apply Hn. now right.
Qed.

Lemma row_of_distinct (fs : list FieldSpec) :
  forall (vs : list pyval) (d : list (pyval * pyval)) (ks : list string),
    length vs = length fs ->
    dict_keys d = map PStr ks ->
    NoDup (ks ++ map field_name fs) ->
    row_of d fs vs = d ++ combine (map (fun f => PStr (field_name f)) fs) vs.
Proof.
  induction fs as [|f fs IH]; intros [|v vs] d ks Hlen Hd Hnd; cbn in Hlen; try discriminate.
  - cbn. now rewrite app_nil_r.
  - cbn [row_of map combine].
    assert (Hn : ~ In (field_name f) ks).
    { cbn [map] in Hnd. apply NoDup_remove_2 in Hnd. intros Hin. apply Hnd.
      apply in_or_app. now left. }
    rewrite (dict_set_fresh d ks _ _ Hd Hn).
    rewrite (IH vs _ (ks ++ [field_name f])).
    + now rewrite <- app_assoc.
    + now injection Hlen.
    + unfold dict_keys in *. rewrite !map_app, Hd. reflexivity.
    + rewrite <- app_assoc. exact Hnd.
Qed.

Lemma values_of_combine {A} (ks : list A) (vs : list pyval) :
  length vs = length ks -> map snd (combine ks vs) = vs.
Proof.
  revert vs. induction ks as [|k ks IH]; intros [|v vs] H; cbn in H; try discriminate.
  - reflexivity.
  - cbn. f_equal. apply IH. now injection H.
Qed.

(** X13. When the field names of a schema description are pairwise
    distinct and every line is kept, the INSERT names the columns in field
    order and binds the kept values in the same order, one per field. *)
Theorem distinct_names_bind_in_field_order
        (rt : Runtime) (sd : SchemaDescription) (w : World)
        (lines rest : list string) (vs : list pyval) :
  NoDup (map field_name (fields sd)) ->
  stdin w = lines ++ rest ->
  kept_values rt (fields sd) lines = Some vs ->
  process_schema rt (schema_to_py sd) w =
  (Ok (confirmation rt (PStr (table_of sd))),
   mkWorld (chat_history w) rest
           (trace w ++
            [EvExecute (render_create_table (create_table_of sd)) None; EvCommit]
            ++ map prompt_of (fields sd)
            ++ [EvExecute
                  ("INSERT INTO " +++ table_of sd +++ " ("
                   +++ join ", " (map field_name (fields sd)) +++ ") VALUES ("
                   +++ join ", " (repeat "%s" (length (fields sd))) +++ ")")
                  (Some vs);
                EvCommit])).
Proof.
  intros Hnd Hin Hvs.
  rewrite (process_schema_ok rt sd w lines rest vs Hin Hvs).
  pose proof (kept_values_length rt _ _ _ Hvs) as Hlen.
  unfold insert_text, column_names.
  rewrite (fold_add_name_distinct _ [] Hnd). cbn [app].
  rewrite (row_of_distinct _ vs [] [] Hlen eq_refl Hnd). cbn [app].
  unfold dict_values. rewrite values_of_combine by now rewrite length_map.
  now rewrite length_map.
Qed.

Lemma distinct_names_bind_in_field_order_witness :
  process_schema (Demo.runtime "Hi") (schema_to_py Demo.people)
                 (mkWorld [] ["30"; "Alice"; "more"] [])
  = (Ok "Data successfully saved to table 'people'.",
     mkWorld [] ["more"]
       [EvExecute "CREATE TABLE IF NOT EXISTS people (age NUMERIC, name TEXT);" None;
        EvCommit; EvInput "Age: "; EvInput "Name: ";
        EvExecute "INSERT INTO people (age, name) VALUES (%s, %s)"
                  (Some [PFloat 30%float; PStr "Alice"]);
        EvCommit]).
Proof.
  refine (distinct_names_bind_in_field_order (Demo.runtime "Hi") Demo.people
            (mkWorld [] ["30"; "Alice"; "more"] []) ["30"; "Alice"] ["more"]
            [PFloat 30%float; PStr "Alice"] _ eq_refl eq_refl).
  repeat constructor; cbn; intuition discriminate.
Defined.

Lemma add_name_NoDup (acc : list string) (n : string) :
  NoDup acc -> NoDup (add_name acc n).
Proof.
  intros H. unfold add_name. destruct (existsb _ acc) eqn:E; [assumption|].
  apply NoDup_app; [assumption | repeat constructor; intros [] |].
  intros x Hx [Heq|[]]. subst x.
  assert (existsb (fun k => (k =? n)%string) acc = true); [|congruence].
  apply existsb_exists. exists n. split; [assumption | apply String.eqb_refl].
Qed.

Lemma fold_add_name_NoDup (names : list string) :
  forall acc, NoDup acc -> NoDup (fold_left add_name names acc).
Proof.
  induction names as [|n names IH]; intros acc H; [assumption|].
  cbn. now apply IH, add_name_NoDup.
Qed.

Lemma row_lookup_set_same (d : list (pyval * pyval)) (n : string) (v : pyval) :
  row_lookup (dict_set d (PStr n) v) n = Some v.
Proof.
  induction d as [|[k v'] d IH]; cbn.
  - now rewrite String.eqb_refl.
  - destruct (key_eqb k (PStr n)) eqn:E; cbn; rewrite E; [reflexivity | assumption].
Qed.

Lemma row_lookup_set_other (d : list (pyval * pyval)) (n m : string) (v : pyval) :
  m <> n -> row_lookup (dict_set d (PStr m) v) n = row_lookup d n.
Proof.
  intros H. induction d as [|[k v'] d IH]; cbn.
  - apply String.eqb_neq in H. now rewrite H.
  - destruct (key_eqb k (PStr m)) eqn:E; cbn.
    + destruct k; cbn in E; try discriminate. apply String.eqb_eq in E. subst s.
      cbn. apply String.eqb_neq in H. now rewrite H.
    + now rewrite IH.
Qed.

Lemma row_lookup_row_of_other (post : list FieldSpec) (n : string) :
  forall (vs : list pyval) (d : list (pyval * pyval)),
    Forall (fun g => field_name g <> n) post ->
    row_lookup (row_of d post vs) n = row_lookup d n.
Proof.
  induction post as [|g post IH]; intros [|v vs] d H; try reflexivity.
  cbn [row_of]. inversion H as [|? ? Hg Hpost]; subst.
  rewrite IH by assumption. now apply row_lookup_set_other.
Qed.

Lemma row_of_app (pre : list FieldSpec) :
  forall (post : list FieldSpec) (vs1 vs2 : list pyval) (d : list (pyval * pyval)),
    length vs1 = length pre ->
    row_of d (pre ++ post) (vs1 ++ vs2) = row_of (row_of d pre vs1) post vs2.
Proof.
  induction pre as [|f pre IH]; intros post [|v vs1] vs2 d H; cbn in H; try discriminate.
  - reflexivity.
  - cbn [app row_of]. apply IH. now injection H.
Qed.

(** ** What was typed, when a call on a schema description returns *)

Lemma collect_data_cases (rt : Runtime) (fs : list FieldSpec) :
  forall si : list string,
    (exists lines rest vs, si = lines ++ rest /\ kept_values rt fs lines = Some vs)
    \/ (forall d ch tr, exists e w',
           collect_data rt (map field_to_py fs) d (mkWorld ch si tr) = (Raise e, w')).
Proof.
  induction fs as [|f fs IH]; intros si.
  - left. now exists [], si, [].
  - destruct si as [|txt si].
    + right. intros d ch tr. cbn [map collect_data]. unfold bind at 1.
      unfold collect_field, bind, lift, input. cbn. now do 2 eexists.
    + destruct (kept_value rt f txt) as [v|] eqn:Hv.
      * destruct (IH si) as [(lines & rest & vs & -> & Hvs)|Hraise].
        -- left. exists (txt :: lines), rest, (v :: vs). split; [reflexivity|].
           cbn [kept_values]. now rewrite Hv, Hvs.
        -- right. intros d ch tr. cbn [map collect_data]. unfold bind at 1.
           rewrite (collect_field_ok rt _ _ _ _ _ _ _ Hv). apply Hraise.
      * right. intros d ch tr. apply kept_value_none in Hv.
        cbn [map collect_data]. unfold bind at 1.
        rewrite (collect_field_fail rt _ _ _ _ _ _ Hv). now do 2 eexists.
Qed.

(** A call on a schema description that returns has read one line per field
    and kept every one of them. *)
Lemma process_schema_returns_inv (rt : Runtime) (sd : SchemaDescription) (w w' : World)
      (message : string) :
  process_schema rt (schema_to_py sd) w = (Ok message, w') ->
  exists lines vs,
    stdin w = lines ++ stdin w' /\
    kept_values rt (fields sd) lines = Some vs /\
    message = confirmation rt (PStr (table_of sd)) /\
    trace w' =
    trace w ++
    [EvExecute (render_create_table (create_table_of sd)) None; EvCommit]
    ++ map prompt_of (fields sd)
    ++ [EvExecute (insert_text sd) (Some (dict_values (row_of [] (fields sd) vs)));
        EvCommit].
Proof.
  intros H.
  destruct (collect_data_cases rt (fields sd) (stdin w))
    as [(lines & rest & vs & Hin & Hvs)|Hraise].
  - rewrite (process_schema_ok rt sd w lines rest vs Hin Hvs) in H.
    injection H as <- <-. now exists lines, vs.
  - exfalso. revert H. destruct w as [ch si tr]. cbn [stdin] in Hraise.
    unfold process_schema. unfold bind at 1. unfold lift at 1. rewrite py_get_table_name.
    unfold bind at 1. unfold lift at 1. rewrite py_get_fields.
    unfold bind at 1. unfold lift at 1. cbn [py_iter].
    unfold bind at 1. rewrite columns_run.
    unfold bind at 1. unfold execute at 1, log. cbn [chat_history stdin trace].
    unfold bind at 1. unfold commit at 1, log. cbn [chat_history stdin trace].
    unfold bind at 1.
    match goal with
    | |- context [collect_data rt _ [] (mkWorld ?c _ ?t)] =>
        destruct (Hraise [] c t) as (e & w1 & ->)
    end.
    discriminate.
Qed.

(** X14. A field name that occurs more than once in a schema description
    is one column of the INSERT.  When a call on the description returns,
    the statement it issued names each column once and binds one value per
    named column, and the value bound for a name is the one kept for the last
    field of that name. *)
Theorem repeated_name_keeps_last_value
        (rt : Runtime) (sd : SchemaDescription) (w w' : World) (message : string) :
  process_schema rt (schema_to_py sd) w = (Ok message, w') ->
  exists lines vs t,
    stdin w = lines ++ stdin w' /\
    kept_values rt (fields sd) lines = Some vs /\
    trace w' =
    t ++ [EvExecute (insert_text sd) (Some (dict_values (row_of [] (fields sd) vs)));
          EvCommit] /\
    NoDup (column_names sd) /\
    dict_keys (row_of [] (fields sd) vs) = map PStr (column_names sd) /\
    length (dict_values (row_of [] (fields sd) vs)) = length (column_names sd) /\
    (forall pre f post vs1 v vs2,
        fields sd = pre ++ f :: post ->
        vs = vs1 ++ v :: vs2 ->
        length vs1 = length pre ->
        Forall (fun g => field_name g <> field_name f) post ->
        row_lookup (row_of [] (fields sd) vs) (field_name f) = Some v).
Proof.
  intros H.
  apply process_schema_returns_inv in H as (lines & vs & Hin & Hvs & _ & Htrace).
  exists lines, vs. eexists. split; [exact Hin|]. split; [exact Hvs|].
  split; [|split; [|split; [|split]]].
  - rewrite Htrace, !app_assoc. reflexivity.
  - apply fold_add_name_NoDup. constructor.
  - exact (row_of_columns rt sd lines vs Hvs).
  - unfold dict_values. rewrite length_map, <- (length_map fst).
    fold (dict_keys (row_of [] (fields sd) vs)).
    rewrite (row_of_columns rt sd lines vs Hvs). apply length_map.
  - intros pre f post vs1 v vs2 Hfs Hsplit Hlen Hpost.
    rewrite Hfs, Hsplit, row_of_app by assumption. cbn [row_of].
    rewrite row_lookup_row_of_other by assumption. apply row_lookup_set_same.
Qed.

Lemma repeated_name_keeps_last_value_witness :
  let sd := mkSchema (Some "t") [mkField "a" "First" "text"; mkField "b" "Other" "text";
                                 mkField "a" "Second" "text"] in
  let w := mkWorld [] ["x"; "y"; "z"] [] in
  let w' := mkWorld [] []
              [EvExecute "CREATE TABLE IF NOT EXISTS t (a TEXT, b TEXT, a TEXT);" None;
               EvCommit; EvInput "First: "; EvInput "Other: "; EvInput "Second: ";
               EvExecute "INSERT INTO t (a, b) VALUES (%s, %s)"
                         (Some [PStr "z"; PStr "y"]);
               EvCommit] in
  process_schema (Demo.runtime "Hi") (schema_to_py sd) w
  = (Ok "Data successfully saved to table 't'.", w') /\
  exists lines vs t,
    stdin w = lines ++ stdin w' /\
    kept_values (Demo.runtime "Hi") (fields sd) lines = Some vs /\
    trace w' =
    t ++ [EvExecute (insert_text sd) (Some (dict_values (row_of [] (fields sd) vs)));
          EvCommit] /\
    NoDup (column_names sd) /\
    dict_keys (row_of [] (fields sd) vs) = map PStr (column_names sd) /\
    length (dict_values (row_of [] (fields sd) vs)) = length (column_names sd) /\
    (forall pre f post vs1 v vs2,
        fields sd = pre ++ f :: post ->
        vs = vs1 ++ v :: vs2 ->
        length vs1 = length pre ->
        Forall (fun g => field_name g <> field_name f) post ->
        row_lookup (row_of [] (fields sd) vs) (field_name f) = Some v).
Proof.
  cbv zeta. split; [reflexivity|].
  exact (repeated_name_keeps_last_value (Demo.runtime "Hi")
           (mkSchema (Some "t") [mkField "a" "First" "text"; mkField "b" "Other" "text";
                                 mkField "a" "Second" "text"])
           (mkWorld [] ["x"; "y"; "z"] []) _ _ eq_refl).
Defined.

Lemma kept_values_without_number_inv (rt : Runtime) (fs : list FieldSpec) :
  forall lines vs,
    Forall (fun f => field_type f <> "number") fs ->
    kept_values rt fs lines = Some vs ->
    vs = map PStr lines /\ length lines = length fs.
Proof.
  induction fs as [|f fs IH]; intros [|txt lines] vs H Hvs; cbn [kept_values] in Hvs;
    try discriminate.
  - injection Hvs as <-. now split.
  - inversion H as [|? ? Hf Hfs]; subst.
    unfold kept_value in Hvs. apply String.eqb_neq in Hf. rewrite Hf in Hvs.
    destruct (kept_values rt fs lines) as [vs'|] eqn:E; [|discriminate].
    injection Hvs as <-. destruct (IH lines vs' Hfs E) as [-> Hlen].
    split; [reflexivity|]. cbn. now rewrite Hlen.
Qed.

(** X15. Only the declared type number makes a line a float.  When no field
    of a schema description is declared number and the call returns, one
    line per field was read and every line was bound as it was typed, as str;
    and the column of a field whose declared type is not text is NUMERIC all
    the same. *)
Theorem only_number_fields_are_converted
        (rt : Runtime) (sd : SchemaDescription) (w w' : World) (message : string) :
  Forall (fun f => field_type f <> "number") (fields sd) ->
  process_schema rt (schema_to_py sd) w = (Ok message, w') ->
  (exists lines,
      stdin w = lines ++ stdin w' /\
      length lines = length (fields sd) /\
      trace w' =
      trace w ++
      [EvExecute (render_create_table (create_table_of sd)) None; EvCommit]
      ++ map prompt_of (fields sd)
      ++ [EvExecute (insert_text sd)
                    (Some (dict_values (row_of [] (fields sd) (map PStr lines))));
          EvCommit]) /\
  (forall f, In f (fields sd) -> field_type f <> "text" ->
             In (field_name f +++ " NUMERIC")
                (map render_column (ct_columns (create_table_of sd)))).
Proof.
  intros Hno H. split.
  - apply process_schema_returns_inv in H as (lines & vs & Hin & Hvs & _ & Htrace).
    destruct (kept_values_without_number_inv rt _ _ _ Hno Hvs) as [-> Hlen].
    now exists lines.
  - intros f Hf Hty. cbn [create_table_of ct_columns]. rewrite map_map.
    apply in_map_iff. exists f. split; [|assumption].
    unfold render_column, column_of_field. cbn.
    apply String.eqb_neq in Hty. now rewrite Hty.
Qed.

Lemma only_number_fields_are_converted_witness :
  let sd := mkSchema None [mkField "title" "Title" "text";
                           mkField "pages" "Pages" "integer"] in
  let w := mkWorld [] ["Dune"; "412"] [] in
  let w' := mkWorld [] []
       [EvExecute "CREATE TABLE IF NOT EXISTS dynamic_data (title TEXT, pages NUMERIC);" None;
        EvCommit; EvInput "Title: "; EvInput "Pages: ";
        EvExecute "INSERT INTO dynamic_data (title, pages) VALUES (%s, %s)"
                  (Some [PStr "Dune"; PStr "412"]);
        EvCommit] in
  process_schema (Demo.runtime "Hi") (schema_to_py sd) w
  = (Ok "Data successfully saved to table 'dynamic_data'.", w') /\
  (exists lines,
      stdin w = lines ++ stdin w' /\
      length lines = length (fields sd) /\
      trace w' =
      trace w ++
      [EvExecute (render_create_table (create_table_of sd)) None; EvCommit]
      ++ map prompt_of (fields sd)
      ++ [EvExecute (insert_text sd)
                    (Some (dict_values (row_of [] (fields sd) (map PStr lines))));
          EvCommit]) /\
  (forall f, In f (fields sd) -> field_type f <> "text" ->
             In (field_name f +++ " NUMERIC")
                (map render_column (ct_columns (create_table_of sd)))).
Proof.
  cbv zeta. split; [reflexivity|].
  refine (only_number_fields_are_converted (Demo.runtime "Hi")
            (mkSchema None [mkField "title" "Title" "text";
                            mkField "pages" "Pages" "integer"])
            (mkWorld [] ["Dune"; "412"] []) _ _ _ eq_refl).
  repeat constructor; discriminate.
Defined.

(** ** What a call that returns says about the schema *)

Lemma dict_set_keeps_other_key (d : list (pyval * pyval)) (k v : pyval) :
  existsb (fun x => negb (is_str x)) (dict_keys d) = true ->
  existsb (fun x => negb (is_str x)) (dict_keys (dict_set d k v)) = true.
Proof.
  induction d as [|[k' v'] d IH]; [discriminate|]. cbn [dict_set].
  destruct (key_eqb k' k); [now cbn|]. cbn. intros H.
  apply orb_true_iff in H as [H|H]; apply orb_true_iff; [now left | right; now apply IH].
Qed.

Lemma dict_set_adds_other_key (d : list (pyval * pyval)) (k v : pyval) :
  is_str k = false ->
  existsb (fun x => negb (is_str x)) (dict_keys (dict_set d k v)) = true.
Proof.
  intros Hk. induction d as [|[k' v'] d IH]; cbn [dict_set].
  - cbn. now rewrite Hk.
  - destruct (key_eqb k' k) eqn:E; cbn.
    + destruct k', k; cbn in E, Hk; try discriminate; reflexivity.
    + apply orb_true_iff. now right.
Qed.

Lemma str_items_all_str (items : list pyval) (l : list string) :
  str_items items = Ok l -> existsb (fun x => negb (is_str x)) items = false.
Proof.
  revert l. induction items as [|x items IH]; intros l H; [reflexivity|].
  destruct x; cbn in H; try discriminate.
  destruct (str_items items) as [l'|e] eqn:E; [|discriminate]. cbn. now apply (IH l').
Qed.

Lemma collect_field_ok_inv (rt : Runtime) (d d' : list (pyval * pyval)) (field : pyval)
      (w w' : World) :
  collect_field rt d field w = (Ok d', w') ->
  exists n t l v,
    py_getitem field "name" = Ok n /\ py_getitem field "type" = Ok t /\
    py_getitem field "label" = Ok l /\ hashable n = true /\ d' = dict_set d n v.
Proof.
  unfold collect_field, bind, lift, dict_setitem.
  destruct (py_getitem field "label") as [l|e]; [|discriminate].
  destruct (input _ w) as [[line|e] w1]; [|discriminate].
  destruct (py_getitem field "type") as [t|e]; [|discriminate].
  destruct (_ w1) as [[v|e] w2]; [|discriminate].
  destruct (py_getitem field "name") as [n|e]; [|discriminate].
  destruct (hashable n) eqn:Hh; [|discriminate].
  intros H. injection H as <- <-. now exists n, t, l, v.
Qed.

Lemma collect_data_ok_inv (rt : Runtime) (fs : list pyval) :
  forall (d d' : list (pyval * pyval)) (w w' : World),
    collect_data rt fs d w = (Ok d', w') ->
    existsb (fun x => negb (is_str x)) (dict_keys d') = false ->
    Forall (fun field =>
              exists s t l,
                py_getitem field "name" = Ok (PStr s) /\
                py_getitem field "type" = Ok t /\ py_getitem field "label" = Ok l) fs.
Proof.
  induction fs as [|field fs IH]; intros d d' w w' H Hstr; [constructor|].
  cbn [collect_data] in H. unfold bind in H.
  destruct (collect_field rt d field w) as [[d1|e] w1] eqn:Hfield; [|discriminate].
  assert (Hd1 : existsb (fun x => negb (is_str x)) (dict_keys d1) = false).
  { destruct (existsb _ (dict_keys d1)) eqn:E; [|reflexivity].
    clear IH Hfield. revert d1 w1 H E. induction fs as [|g fs IHfs]; intros d1 w1 H E.
    - cbn in H. injection H as <- <-. congruence.
    - cbn [collect_data] in H. unfold bind in H.
      destruct (collect_field rt d1 g w1) as [[d2|e] w2] eqn:Hg; [|discriminate].
      apply collect_field_ok_inv in Hg as (n & t & l & v & _ & _ & _ & _ & ->).
      apply (IHfs _ _ H). now apply dict_set_keeps_other_key. }
  constructor; [|exact (IH _ _ _ _ H Hstr)].
  apply collect_field_ok_inv in Hfield as (n & t & l & v & Hn & Ht & Hl & _ & ->).
  destruct (is_str n) eqn:Hs.
  - destruct n; try discriminate. now exists s, t, l.
  - rewrite (dict_set_adds_other_key d n v Hs) in Hd1. discriminate.
Qed.

Lemma process_schema_ok_inv (rt : Runtime) (schema : pyval) (w w' : World)
      (message : string) :
  process_schema rt schema w = (Ok message, w') ->
  exists fields fs data keys w1 w2,
    py_get schema "fields" (PList []) = Ok fields /\
    py_iter fields = Ok fs /\
    collect_data rt fs [] w1 = (Ok data, w2) /\
    str_items (dict_keys data) = Ok keys.
Proof.
  unfold process_schema. unfold bind at 1. unfold lift at 1.
  destruct schema; try discriminate.
  cbn [py_get]. unfold bind at 1. unfold lift at 1.
  unfold bind at 1. unfold lift at 1.
  destruct (py_iter _) as [fs|e] eqn:Hiter; [|discriminate].
  unfold bind at 1.
  destruct (for_each (column_sql rt) fs w) as [[cols|e] w0]; [|discriminate].
  unfold bind at 1. unfold execute at 1, log.
  unfold bind at 1. unfold commit at 1, log.
  unfold bind at 1.
  match goal with
  | |- context [collect_data rt fs [] ?w2] => set (w1 := w2)
  end.
  destruct (collect_data rt fs [] w1) as [[data|e] w2] eqn:Hdata; [|discriminate].
  unfold bind at 1. unfold lift at 1.
  destruct (str_items (dict_keys data)) as [keys|e] eqn:Hkeys; [|discriminate].
  intros _. now exists (match assoc "fields" d with Some v => v | None => PList [] end),
              fs, data, keys, w1, w2.
Qed.

(** X17. A call of [process_schema] that returns was given an object whose
    fields each have a label, a type and a name that is a str.  So a schema
    with a field whose name is a number, true, false, null, a list or an
    object never gets its row inserted. *)
Theorem returning_call_had_str_names
        (rt : Runtime) (schema fields : pyval) (fs : list pyval) (w w' : World)
        (message : string) :
  process_schema rt schema w = (Ok message, w') ->
  py_get schema "fields" (PList []) = Ok fields ->
  py_iter fields = Ok fs ->
  Forall (fun field =>
            exists s t l,
              py_getitem field "name" = Ok (PStr s) /\
              py_getitem field "type" = Ok t /\ py_getitem field "label" = Ok l) fs.
Proof.
  intros Hrun Hget Hiter.
  apply process_schema_ok_inv in Hrun
    as (fields' & fs' & data & keys & w1 & w2 & Hget' & Hiter' & Hdata & Hkeys).
  rewrite Hget in Hget'. injection Hget' as <-.
  rewrite Hiter in Hiter'. injection Hiter' as <-.
  apply (collect_data_ok_inv rt fs [] data w1 w2 Hdata).
  now apply (str_items_all_str _ keys).
Qed.

Lemma returning_call_had_str_names_witness :
  Forall (fun field =>
            exists s t l,
              py_getitem field "name" = Ok (PStr s) /\
              py_getitem field "type" = Ok t /\ py_getitem field "label" = Ok l)
         (map field_to_py (fields Demo.people)).
Proof.
  exact (returning_call_had_str_names (Demo.runtime "Hi") (schema_to_py Demo.people)
           (PList (map field_to_py (fields Demo.people)))
           (map field_to_py (fields Demo.people))
           (mkWorld [] ["30"; "Alice"] [])
           (snd (process_schema (Demo.runtime "Hi") (schema_to_py Demo.people)
                                (mkWorld [] ["30"; "Alice"] [])))
           "Data successfully saved to table 'people'."
           eq_refl eq_refl eq_refl).
Defined.
